(** * Meerschaum pipes: identity, lazy attributes and the sync engine

    A shallow embedding of [meerschaum/Pipe/_Pipe.py] and
    [meerschaum/Pipe/_sync.py].  Python objects become records, the
    instance dictionary of a pipe becomes optional fields (absent key =
    [None]), calls to connectors are recorded in a trace of events, and
    exceptions are an explicit outcome. *)

From Stdlib Require Import ZArith Lia Ascii String List Bool.
From stdpp Require Import base option list strings gmap fin_maps.

Local Open Scope string_scope.
Local Open Scope Z_scope.

(** ** Python values *)

Module Py.

(** The JSON-like values a parameters dictionary holds.  A dictionary is an
    association list: keys are looked up front to back. *)
#[warnings="-register-all"]
Inductive pyval : Type :=
| PNone
| PBool (b : bool)
| PInt (z : Z)
| PStr (s : string)
| PDict (kvs : list (string * pyval)).

Inductive exn : Type :=
| AttributeError (what : string)
| KeyError (key : string)
| TypeError (what : string)
| ValueError (what : string)
| UnboundLocalError (var : string)
| OperationalError (what : string).

Inductive outcome (A : Type) : Type :=
| Ret (a : A)
| Raise (e : exn).
Arguments Ret {A} a.
Arguments Raise {A} e.

Fixpoint assoc {V : Type} (k : string) (kvs : list (string * V)) : option V :=
  match kvs with
  | [] => None
  | (k', v) :: rest => if String.eqb k k' then Some v else assoc k rest
  end.

(** [d[k]]: only a dictionary can be subscripted by a key here; a missing key
    is a [KeyError], anything that is not a dictionary a [TypeError]. *)
Definition getitem (d : pyval) (k : string) : outcome pyval :=
  match d with
  | PDict kvs =>
      match assoc k kvs with
      | Some v => Ret v
      | None => Raise (KeyError k)
      end
  | _ => Raise (TypeError "object is not subscriptable")
  end.

(** Truth value of an optional integer id: [None] and [0] are falsy. *)
Definition truthy_id (i : option Z) : bool :=
  match i with
  | Some z => negb (Z.eqb z 0)
  | None => false
  end.

(** [s.replace(old, new)] for one-character [old] and [new]. *)
Fixpoint replace (old new : ascii) (s : string) : string :=
  match s with
  | EmptyString => EmptyString
  | String c rest =>
      String (if Ascii.eqb c old then new else c) (replace old new rest)
  end.

End Py.
Import Py.

(** ** Data frames (the part of pandas that [sync] uses) *)

Module Pandas.

(** A cell is an integer (timestamps are seconds since the epoch) or missing
    ([None] stands for NaN / NaT / NULL). *)
Definition cell : Type := option Z.

(** A frame has column labels and rows; every row carries its index label. *)
Record DataFrame : Type := mkDF {
  columns : list string;
  rows : list (Z * list cell)
}.

Definition cell_eqb (a b : cell) : bool :=
  match a, b with
  | Some x, Some y => Z.eqb x y
  | _, _ => false          (* NaN compares unequal to everything *)
  end.

Definition row_eqb (r1 r2 : list cell) : bool :=
  Nat.eqb (length r1) (length r2) && forallb (fun p => cell_eqb (fst p) (snd p)) (combine r1 r2).

Fixpoint index_of (c : string) (cs : list string) : option nat :=
  match cs with
  | [] => None
  | c' :: rest => if String.eqb c c' then Some O else option_map S (index_of c rest)
  end.

Definition find_row (i : Z) (rs : list (Z * list cell)) : option (list cell) :=
  option_map snd (find (fun r => Z.eqb (fst r) i) rs).

(** [df.loc[i, c]] when both labels exist. *)
Definition at_label (df : DataFrame) (i : Z) (c : string) : option cell :=
  match find_row i (rows df), index_of c (columns df) with
  | Some r, Some j => nth_error r j
  | _, _ => None
  end.

Definition head0 (df : DataFrame) : DataFrame := mkDF (columns df) [].

(** [df[c]]: the cells of one column, [None] when the label is unknown. *)
Definition column (df : DataFrame) (c : string) : option (list cell) :=
  match index_of c (columns df) with
  | Some j => Some (map (fun r => nth j (snd r) None) (rows df))
  | None => None
  end.

(** [Series.min()]: missing cells are skipped; no value at all gives NaT. *)
Fixpoint series_min (cs : list cell) : cell :=
  match cs with
  | [] => None
  | None :: rest => series_min rest
  | Some x :: rest =>
      match series_min rest with
      | Some m => Some (Z.min x m)
      | None => Some x
      end
  end.

Fixpoint series_max (cs : list cell) : cell :=
  match cs with
  | [] => None
  | None :: rest => series_max rest
  | Some x :: rest =>
      match series_max rest with
      | Some m => Some (Z.max x m)
      | None => Some x
      end
  end.

Fixpoint unique_str (l : list string) : bool :=
  match l with
  | [] => true
  | x :: rest => negb (existsb (String.eqb x) rest) && unique_str rest
  end.

Fixpoint unique_Z (l : list Z) : bool :=
  match l with
  | [] => true
  | x :: rest => negb (existsb (Z.eqb x) rest) && unique_Z rest
  end.

(** The mask of [df.isin(values)] for a frame [values]: a cell is marked when
    [values] has the same index label and the same column label and the two
    cells are equal ([self.eq(values.reindex_like(self))]). *)
Definition isin_row (values : DataFrame) (cols : list string) (r : Z * list cell)
  : list bool :=
  map (fun cv : string * cell =>
         match at_label values (fst r) (fst cv) with
         | Some v => cell_eqb (snd cv) v
         | None => false
         end)
      (combine cols (snd r)).

Definition isin (df values : DataFrame) : outcome (list (list bool)) :=
  if unique_str (columns values) && unique_Z (map fst (rows values))
  then Ret (map (isin_row values (columns df)) (rows df))
  else Raise (ValueError "cannot compute isin with a duplicate axis.").

(** [~mask]. *)
Definition invert (mask : list (list bool)) : list (list bool) :=
  map (map negb) mask.

(** [df[mask]] for a boolean frame: [df.where(mask)], cells outside the mask
    become missing. *)
Definition where_row (r : Z * list cell) (m : list bool) : Z * list cell :=
  (fst r, map (fun cm : cell * bool => if snd cm then fst cm else None) (combine (snd r) m)).

Definition getitem_mask (df : DataFrame) (mask : list (list bool)) : DataFrame :=
  mkDF (columns df) (map (fun rm => where_row (fst rm) (snd rm)) (combine (rows df) mask)).

Definition all_missing (r : list cell) : bool :=
  forallb (fun c => match c with None => true | Some _ => false end) r.

(** [df.dropna(how='all')]. *)
Definition dropna_all (df : DataFrame) : DataFrame :=
  mkDF (columns df) (List.filter (fun r => negb (all_missing (snd r))) (rows df)).

(** [range(n)] as index labels. *)
Definition range_index (n : nat) : list Z := map Z.of_nat (seq 0 n).

(** A frame read back from storage: rows labelled 0, 1, 2, ... *)
Definition reindexed (cols : list string) (rs : list (list cell)) : DataFrame :=
  mkDF cols (combine (range_index (length rs)) rs).

End Pandas.
Import Pandas.

(** ** Connectors and pipes *)

(** A connector handle: its [type] ("sql", "api", "mqtt", ...), its [label]
    and, for SQL connectors, the [flavor] of the database. *)
Record Connector : Type := mkConnector {
  type : string;
  label : string;
  flavor : string
}.

(** [meerschaum/api/models/_pipes.py]. *)
Module Models.

(** [MetaPipe]: three required fields of type [str]. *)
Record MetaPipe : Type := mkMetaPipe {
  location_key : string;
  metric_key : string;
  connector_keys : string
}.

(** [MetaPipe(connector_keys = ..., metric_key = ..., location_key = ...,
    parameters = ...)]: the model validates its fields when it is built.  A
    required [str] field does not take [None] (a validation error, which is
    a [ValueError]); a keyword that is no field ([parameters]) is ignored. *)
Definition validate (connector_keys metric_key : string) (location_key : option string)
  : outcome MetaPipe :=
  match location_key with
  | Some l => Ret (mkMetaPipe l metric_key connector_keys)
  | None => Raise (ValueError "location_key: none is not an allowed value")
  end.

End Models.

(** A pipe object.  The last block of fields is the part of the instance
    dictionary that the lazy properties manage: [None] means that the
    attribute is not in [__dict__]. *)
Record Pipe : Type := mkPipe {
  connector_keys : string;
  metric_key : string;
  location_key : option string;
  instance_keys : string;
  meta : Models.MetaPipe;
  _parameters : option pyval;
  _connector : option Connector;
  _instance_connector : option Connector;
  _id : option (option Z);
  _sync_time : option (option Z)
}.

(** [Pipe.__init__]: the location ['[None]'] stands for no location; the
    keys are validated by [MetaPipe] (line 63), whose error leaves the
    constructor; then the instance is given as keys or as a connector. *)
Definition init (connector_keys metric_key : string) (location_key : option string)
    (parameters : option pyval) (mrsm_instance : string + Connector) : outcome Pipe :=
  let location_key :=
    match location_key with
    | Some l => if String.eqb l "[None]" then None else Some l
    | None => None
    end in
  match Models.validate connector_keys metric_key location_key with
  | Raise e => Raise e
  | Ret m =>
      Ret {| connector_keys := connector_keys;
             metric_key := metric_key;
             location_key := location_key;
             instance_keys :=
               match mrsm_instance with
               | inl keys => keys
               | inr conn => type conn ++ ":" ++ label conn
               end;
             meta := m;
             _parameters := parameters;
             _connector := None;
             _instance_connector :=
               match mrsm_instance with
               | inl _ => None
               | inr conn => Some conn
               end;
             _id := None;
             _sync_time := None |}
  end.

(** [Pipe.__str__]: the name of the pipe's table. *)
Definition str (self : Pipe) : string :=
  let name := replace ":" "_" (connector_keys self) ++ "_" ++ metric_key self in
  match location_key self with
  | Some l => name ++ "_" ++ l
  | None => name
  end.

(** Modelled from the spec: the [parameters] property of [_attributes.py]
    (not in the sources): the mapping given to the pipe, [None] when no
    mapping was supplied. *)
Definition parameters (self : Pipe) : pyval :=
  match _parameters self with
  | Some v => v
  | None => PNone
  end.

(** Modelled from the spec: the [columns] property of [_attributes.py] (not in
    the sources): the [columns] mapping of the parameters, [None] when the
    parameters declare none. *)
Definition pipe_columns (self : Pipe) : option (list (string * pyval)) :=
  match parameters self with
  | PDict kvs =>
      match assoc "columns" kvs with
      | Some (PDict cols) => Some cols
      | _ => None
      end
  | _ => None
  end.

(** The name of the timestamp column, when [columns] declares one. *)
Definition datetime_column (self : Pipe) : option string :=
  match pipe_columns self with
  | Some cols =>
      match assoc "datetime" cols with
      | Some (PStr c) => Some c
      | _ => None
      end
  | None => None
  end.

(** ** The instance store *)

Module Store.

(** The three keys that identify a pipe. *)
Definition identity : Type := string * string * option string.

Definition identity_of (p : Pipe) : identity :=
  (connector_keys p, metric_key p, location_key p).

Record Table : Type := mkTable {
  tcolumns : list string;
  trows : list (list cell)
}.

(** One database: its tables by name and the registered pipes with their
    ids. *)
Record Db : Type := mkDb {
  tables : gmap string Table;
  pipes : list (identity * Z)
}.

Definition empty_db : Db := mkDb ∅ [].

Fixpoint lookup_pipe (i : identity) (ps : list (identity * Z)) : option Z :=
  match ps with
  | [] => None
  | (i', n) :: rest => if bool_decide (i = i') then Some n else lookup_pipe i rest
  end.

(** Modelled from the spec: [get_pipe_id(pipe) -> id-or-null] of the instance
    connector (not in the sources). *)
Definition get_pipe_id (db : Db) (p : Pipe) : option Z :=
  lookup_pipe (identity_of p) (pipes db).

(** Modelled from the spec: registration (not in the sources) persists the
    identity and assigns the storage id; a registered pipe keeps its id. *)
Definition register (db : Db) (p : Pipe) : Db :=
  match lookup_pipe (identity_of p) (pipes db) with
  | Some _ => db
  | None =>
      mkDb (tables db) (pipes db ++ [(identity_of p, Z.of_nat (S (length (pipes db))))])
  end.

(** Modelled from the spec: [append(pipe, rows)], the [to_sql] of the instance
    connector (not in the sources) with [if_exists = 'append']: a missing
    table is created from the frame, an existing one receives the rows; the
    index labels are not stored.  Rows of another shape are refused. *)
Definition to_sql (db : Db) (name : string) (df : DataFrame) : outcome Db :=
  match tables db !! name with
  | None =>
      Ret (mkDb (<[name := mkTable (columns df) (map snd (rows df))]> (tables db)) (pipes db))
  | Some t =>
      if bool_decide (columns df = tcolumns t)
      then Ret (mkDb (<[name := mkTable (tcolumns t) (trows t ++ map snd (rows df))]> (tables db))
                     (pipes db))
      else Raise (OperationalError "columns of the frame differ from the table")
  end.

Definition minutes_of (v : pyval) : Z :=
  match v with
  | PInt m => m
  | _ => 0
  end.

(** A stored row lies in the window when its timestamp is not older than
    [begin] moved back by the backtrack minutes; without a [begin] every row
    does. *)
Definition in_window (j : nat) (minutes : pyval) (begin : option Z) (r : list cell) : bool :=
  match begin with
  | None => true
  | Some b =>
      match nth j r None with
      | Some t => b - 60 * minutes_of minutes <=? t
      | None => false
      end
  end.

(** Modelled from the spec: [get_backtrack_data(pipe, begin, window) -> rows]
    of the instance connector (not in the sources): the stored rows from
    [begin] on, read back as a frame (labels 0, 1, 2, ...); nothing when the
    table or its timestamp column is missing. *)
Definition get_backtrack_data (db : Db) (p : Pipe) (backtrack_minutes : pyval)
    (begin : option Z) : option DataFrame :=
  match tables db !! str p, datetime_column p with
  | Some t, Some dt =>
      match index_of dt (tcolumns t) with
      | Some j =>
          Some (reindexed (tcolumns t)
                  (List.filter (in_window j backtrack_minutes begin) (trows t)))
      | None => None
      end
  | _, _ => None
  end.

(** Modelled from the spec: [get_sync_time(pipe) -> timestamp-or-null] of the
    instance connector (not in the sources): the most recent timestamp
    present in storage. *)
Definition get_sync_time (db : Db) (p : Pipe) : option Z :=
  match tables db !! str p, datetime_column p with
  | Some t, Some dt =>
      match index_of dt (tcolumns t) with
      | Some j => series_max (map (fun r => nth j r None) (trows t))
      | None => None
      end
  | _, _ => None
  end.

End Store.

(** ** The world around a pipe, and the effects of a call *)

(** What [sync] returns: a [(success, message)] pair, or any other value
    ([RValue PNone] is Python's [None]). *)
Inductive result : Type :=
| RTuple (success : bool) (message : string)
| RValue (v : pyval).

(** The connector registry and one database per instance connector, keyed by
    the ["type:label"] string of the connector. *)
Record World : Type := mkWorld {
  registry : gmap string Connector;
  dbs : gmap string Store.Db
}.

Record State : Type := mkState {
  self : Pipe;
  world : World
}.

Definition keys_of (c : Connector) : string := type c ++ ":" ++ label c.

Definition db_of (w : World) (c : Connector) : Store.Db :=
  default Store.empty_db (dbs w !! keys_of c).

Definition set_db (w : World) (c : Connector) (db : Store.Db) : World :=
  mkWorld (registry w) (<[keys_of c := db]> (dbs w)).

(** Everything a call does outside of the pipe object is an event. *)
Inductive event : Type :=
| EvWarn (message : string)
| EvFetch (source : Connector) (pipe : string)
| EvSyncPipe (instance : Connector) (pipe : string) (df : option DataFrame)
| EvGetColumns (pipe : string) (col : string)
| EvGetPipeId (instance : Connector) (pipe : string)
| EvRegister (instance : Connector) (pipe : string)
| EvValue (conn : Connector) (query : string)
| EvToSql (instance : Connector) (name : string) (df : DataFrame)
| EvCreateIndices (instance : Connector) (pipe : string)
| EvGetBacktrackData (instance : Connector) (pipe : string)
    (backtrack_minutes : pyval) (begin : option Z)
| EvGetSyncTime (instance : Connector) (pipe : string).

(** A run ends with a value or an exception, in a state, after a trace. *)
Record run (A : Type) : Type := Run {
  res : outcome A;
  post : State;
  trace : list event
}.
Arguments Run {A} res post trace.
Arguments res {A} r.
Arguments post {A} r.
Arguments trace {A} r.

Definition M (A : Type) : Type := State -> run A.

Definition ret {A : Type} (a : A) : M A := fun s => Run (Ret a) s [].

Definition raise {A : Type} (e : exn) : M A := fun s => Run (Raise e) s [].

Definition bind {A B : Type} (m : M A) (f : A -> M B) : M B := fun s =>
  match m s with
  | Run (Ret a) s1 t1 =>
      match f a s1 with
      | Run r s2 t2 => Run r s2 (t1 ++ t2)
      end
  | Run (Raise e) s1 t1 => Run (Raise e) s1 t1
  end.

Declare Scope py_scope.
Delimit Scope py_scope with py.
Notation "x <- m ;; k" := (bind m (fun x => k))
  (at level 100, m at next level, right associativity) : py_scope.
Notation "m ;;; k" := (bind m (fun _ => k))
  (at level 100, right associativity) : py_scope.
Local Open Scope py_scope.

Definition get_self : M Pipe := fun s => Run (Ret (self s)) s [].
Definition get_world : M World := fun s => Run (Ret (world s)) s [].
Definition modify_self (f : Pipe -> Pipe) : M unit :=
  fun s => Run (Ret tt) (mkState (f (self s)) (world s)) [].
Definition put_world (w : World) : M unit :=
  fun s => Run (Ret tt) (mkState (self s) w) [].
Definition emit (e : event) : M unit := fun s => Run (Ret tt) s [e].
Definition lift {A : Type} (o : outcome A) : M A := fun s => Run o s [].

(** [warn(message)]. *)
Definition warn (message : string) : M unit := emit (EvWarn message).

(** Attribute access on a handle that may be [None]. *)
Definition deref (attr : string) (c : option Connector) : M Connector :=
  match c with
  | Some conn => ret conn
  | None => raise (AttributeError ("'NoneType' object has no attribute '" ++ attr ++ "'"))
  end.

Definition set__connector (c : Connector) (p : Pipe) : Pipe :=
  mkPipe (connector_keys p) (metric_key p) (location_key p) (instance_keys p)
         (meta p) (_parameters p) (Some c) (_instance_connector p) (_id p) (_sync_time p).

Definition set__instance_connector (c : Connector) (p : Pipe) : Pipe :=
  mkPipe (connector_keys p) (metric_key p) (location_key p) (instance_keys p)
         (meta p) (_parameters p) (_connector p) (Some c) (_id p) (_sync_time p).

Definition set__id (v : option Z) (p : Pipe) : Pipe :=
  mkPipe (connector_keys p) (metric_key p) (location_key p) (instance_keys p)
         (meta p) (_parameters p) (_connector p) (_instance_connector p) (Some v) (_sync_time p).

Definition set__sync_time (v : option Z) (p : Pipe) : Pipe :=
  mkPipe (connector_keys p) (metric_key p) (location_key p) (instance_keys p)
         (meta p) (_parameters p) (_connector p) (_instance_connector p) (_id p) (Some v).

Definition del__sync_time (p : Pipe) : Pipe :=
  mkPipe (connector_keys p) (metric_key p) (location_key p) (instance_keys p)
         (meta p) (_parameters p) (_connector p) (_instance_connector p) (_id p) None.

(** Modelled from the spec: [parse_connector_keys], [parse_instance_keys] and
    [get_connector] (not in the sources) resolve a ["type:label"] string
    through the connector registry, to a handle or to nothing. *)
Definition parse_keys (keys : string) : M (option Connector) :=
  w <- get_world ;; ret (registry w !! keys).

Definition get_connector (type label : string) : M (option Connector) :=
  parse_keys (type ++ ":" ++ label).

(** Modelled from the spec: [round_time(dt, to = 'down')] (not in the
    sources) floors a timestamp to the default granularity of one minute. *)
Definition round_time_down (dt : Z) : Z := 60 * (dt / 60).

(** [datetime.timedelta(minutes = m)] in seconds. *)
Definition timedelta_minutes (m : Z) : Z := 60 * m.

Definition newline : string := String (ascii_of_nat 10) EmptyString.

(** ** The methods of a pipe *)

(** What the sources call but do not contain and the spec does not pin down:
    - [pg_capital name], the quoting of a table name for PostgreSQL;
    - [get_columns pipe col], the column lookup of [_attributes.py];
    - [value conn db query], the first value of a query's result, or nothing;
    - [sync_pipe conn pipe df], the answer of a remote (API) instance;
    - [fetch conn pipe], the rows the source connector yields, or nothing. *)
Record Externals : Type := mkExternals {
  pg_capital : string -> string;
  get_columns : Pipe -> string -> outcome pyval;
  value : Connector -> Store.Db -> string -> option pyval;
  sync_pipe : Connector -> Pipe -> option DataFrame -> result;
  fetch : Connector -> Pipe -> option DataFrame
}.

Section Methods.

Variable E : Externals.

(** *** Calls on a connector *)

Definition conn_fetch (c : Connector) : M (option DataFrame) :=
  p <- get_self ;;
  emit (EvFetch c (str p)) ;;;
  ret (fetch E c p).

Definition conn_sync_pipe (c : Connector) (df : option DataFrame) : M result :=
  p <- get_self ;;
  emit (EvSyncPipe c (str p) df) ;;;
  ret (sync_pipe E c p df).

Definition conn_get_pipe_id (c : Connector) : M (option Z) :=
  p <- get_self ;;
  w <- get_world ;;
  emit (EvGetPipeId c (str p)) ;;;
  ret (Store.get_pipe_id (db_of w c) p).

Definition conn_register (c : Connector) : M unit :=
  p <- get_self ;;
  w <- get_world ;;
  emit (EvRegister c (str p)) ;;;
  put_world (set_db w c (Store.register (db_of w c) p)).

Definition conn_value (c : Connector) (q : string) : M (option pyval) :=
  w <- get_world ;;
  emit (EvValue c q) ;;;
  ret (value E c (db_of w c) q).

Definition conn_to_sql (c : Connector) (name : string) (df : DataFrame) : M unit :=
  w <- get_world ;;
  emit (EvToSql c name df) ;;;
  db <- lift (Store.to_sql (db_of w c) name df) ;;
  put_world (set_db w c db).

Definition conn_create_indices (c : Connector) : M unit :=
  p <- get_self ;;
  emit (EvCreateIndices c (str p)).

Definition conn_get_backtrack_data (c : Connector) (backtrack_minutes : pyval)
    (begin : option Z) : M (option DataFrame) :=
  p <- get_self ;;
  w <- get_world ;;
  emit (EvGetBacktrackData c (str p) backtrack_minutes begin) ;;;
  ret (Store.get_backtrack_data (db_of w c) p backtrack_minutes begin).

Definition conn_get_sync_time (c : Connector) : M (option Z) :=
  p <- get_self ;;
  w <- get_world ;;
  emit (EvGetSyncTime c (str p)) ;;;
  ret (Store.get_sync_time (db_of w c) p).

(** *** Lazy properties ([_Pipe.py]) *)

Definition instance_connector : M (option Connector) :=
  p <- get_self ;;
  match _instance_connector p with
  | Some c => ret (Some c)
  | None =>
      conn <- parse_keys (instance_keys p) ;;
      match conn with
      | Some c => modify_self (set__instance_connector c) ;;; ret (Some c)
      | None => ret None
      end
  end.

Definition connector : M (option Connector) :=
  p <- get_self ;;
  match _connector p with
  | Some c => ret (Some c)
  | None =>
      conn <- parse_keys (connector_keys p) ;;
      match conn with
      | Some c => modify_self (set__connector c) ;;; ret (Some c)
      | None => ret None
      end
  end.

Definition cached_id_is_truthy (p : Pipe) : bool :=
  match _id p with
  | Some v => truthy_id v
  | None => false
  end.

Definition id : M (option Z) :=
  p <- get_self ;;
  (if negb (cached_id_is_truthy p)
   then
     ic <- instance_connector ;;
     c <- deref "get_pipe_id" ic ;;
     v <- conn_get_pipe_id c ;;
     modify_self (set__id v)
   else ret tt) ;;;
  p <- get_self ;;
  match _id p with
  | Some v => ret v
  | None => raise (AttributeError "'Pipe' object has no attribute '_id'")
  end.

(** *** [_sync.py] *)

Definition edit_hint (p : Pipe) : string :=
  "'datetime' must be declared in parameters:columns for Pipe '" ++ str p ++ "'."
  ++ newline ++ newline
  ++ "You can add parameters for this Pipe with the following command:"
  ++ newline ++ newline
  ++ "mrsm edit pipes -C " ++ connector_keys p ++ " -M "
  ++ metric_key p ++ " -L "
  ++ match location_key p with
     | None => "[None]"
     | Some l => l
     end.

Definition get_sync_time : M (option Z) :=
  p <- get_self ;;
  match pipe_columns p with
  | None =>
      warn ("No columns found for pipe '" ++ str p ++ "'. Is pipe registered?") ;;;
      ret None
  | Some cols =>
      match assoc "datetime" cols with
      | None => warn (edit_hint p) ;;; ret None
      | Some _ =>
          ic <- instance_connector ;;
          c <- deref "get_sync_time" ic ;;
          conn_get_sync_time c
      end
  end.

Definition sync_time : M (option Z) :=
  p <- get_self ;;
  (match _sync_time p with
   | None => v <- get_sync_time ;; modify_self (set__sync_time v)
   | Some _ => ret tt
   end) ;;;
  p <- get_self ;;
  match _sync_time p with
  | Some None => modify_self del__sync_time ;;; ret None
  | Some (Some t) => ret (Some t)
  | None => raise (AttributeError "'Pipe' object has no attribute '_sync_time'")
  end.

(** [self.parameters['fetch']['backtrack_minutes']]. *)
Definition declared_backtrack_minutes (p : Pipe) : outcome pyval :=
  match getitem (parameters p) "fetch" with
  | Ret f => getitem f "backtrack_minutes"
  | Raise e => Raise e
  end.

Definition get_backtrack_data (backtrack_minutes : pyval) (begin : option Z)
  : M (option DataFrame) :=
  p <- get_self ;;
  let backtrack_minutes :=
    match declared_backtrack_minutes p with
    | Ret v => v
    | Raise _ => backtrack_minutes          (* except: pass *)
    end in
  begin <- match begin with
           | None => sync_time
           | Some b => ret (Some b)
           end ;;
  ic <- instance_connector ;;
  c <- deref "get_backtrack_data" ic ;;
  conn_get_backtrack_data c backtrack_minutes begin.

Definition flavor_in (f : string) (fs : list string) : bool :=
  existsb (String.eqb f) fs.

Definition exists_ : M bool :=
  conn <- instance_connector ;;
  conn <- get_connector "sql" "main" ;;
  conn <- deref "flavor" conn ;;
  p <- get_self ;;
  q <- (if flavor_in (flavor conn) ["timescaledb"; "postgresql"]
        then ret ("SELECT to_regclass('" ++ pg_capital E (str p) ++ "')")
        else if String.eqb (flavor conn) "mssql"
        then ret ("SELECT OBJECT_ID('" ++ str p ++ "')")
        else if flavor_in (flavor conn) ["mysql"; "mariadb"]
        then ret ("SHOW TABLES LIKE '" ++ str p ++ "'")
        else raise (UnboundLocalError "q")) ;;
  v <- conn_value conn q ;;
  ret (match v with
       | Some _ => true
       | None => false
       end).

(** [self.register()] of [_register.py] (not in the sources), through the
    instance connector. *)
Definition register : M unit :=
  ic <- instance_connector ;;
  c <- deref "register_pipe" ic ;;
  conn_register c.

(** [df[self.columns['datetime']].min().to_pydatetime()]. *)
Definition oldest (p : Pipe) (df : DataFrame) : outcome Z :=
  match pipe_columns p with
  | None => Raise (TypeError "'NoneType' object is not subscriptable")
  | Some cols =>
      match assoc "datetime" cols with
      | None => Raise (KeyError "datetime")
      | Some (PStr c) =>
          match column df c with
          | None => Raise (KeyError c)
          | Some cs =>
              match series_min cs with
              | Some t => Ret t
              | None => Raise (ValueError "NaT has no minute to round")
              end
          end
      | Some _ => Raise (KeyError "not a column label")
      end
  end.

(** [df[~df.isin(backtrack_df)].dropna(how='all')]. *)
Definition unseen (df : DataFrame) (backtrack_df : option DataFrame) : outcome DataFrame :=
  match backtrack_df with
  | None => Raise (TypeError "only list-like or dict-like objects are allowed to be passed to DataFrame.isin()")
  | Some b =>
      match isin df b with
      | Ret mask => Ret (dropna_all (getitem_mask df (invert mask)))
      | Raise e => Raise e
      end
  end.

(** Lines 61 to 98 of [sync]: bootstrap the table, look back, keep the
    unseen data, append. *)
Definition sync_merge (df : DataFrame) : M result :=
  sql_connector <- instance_connector ;;
  found <- exists_ ;;
  (if negb found
   then
     c <- deref "to_sql" sql_connector ;;
     p <- get_self ;;
     conn_to_sql c (str p) (head0 df) ;;;
     conn_create_indices c
   else ret tt) ;;;
  p <- get_self ;;
  t <- lift (oldest p df) ;;
  let begin := round_time_down t - timedelta_minutes 1 in
  backtrack_df <- get_backtrack_data (PInt 0) (Some begin) ;;
  new_data_df <- lift (unseen df backtrack_df) ;;
  c <- deref "to_sql" sql_connector ;;
  p <- get_self ;;
  conn_to_sql c (str p) new_data_df ;;;
  ret (RTuple true "Success").

(** Lines 41 to 56 of [sync], then the merge. *)
Definition sync_local (df : option DataFrame) : M result :=
  p <- get_self ;;
  emit (EvGetColumns (str p) "datetime") ;;;
  datetime <- lift (get_columns E p "datetime") ;;
  i <- id ;;
  (if negb (truthy_id i) then register else ret tt) ;;;
  match df with
  | None =>
      src <- connector ;;
      c <- deref "type" src ;;
      if String.eqb (type c) "mqtt"
      then ret (RTuple true "Success")
      else
        p <- get_self ;;
        warn ("Was not able to sync '" ++ str p ++ "'") ;;;
        ret (RValue PNone)
  | Some d => sync_merge d
  end.

(** Lines 37 to 39 of [sync]. *)
Definition sync_instance (df : option DataFrame) : M result :=
  ic <- instance_connector ;;
  c <- deref "type" ic ;;
  if String.eqb (type c) "api"
  then conn_sync_pipe c df
  else sync_local df.

Definition sync (df : option DataFrame) : M result :=
  match df with
  | None =>
      src <- connector ;;
      match src with
      | None => ret (RTuple false "Cannot fetch without a connector")
      | Some c =>
          df <- conn_fetch c ;;
          sync_instance df
      end
  | Some _ => sync_instance df
  end.

End Methods.


(** ** What the lazy handles resolve to *)

Definition resolved_connector (s : State) : option Connector :=
  match _connector (self s) with
  | Some c => Some c
  | None => registry (world s) !! connector_keys (self s)
  end.

Definition resolved_instance (s : State) : option Connector :=
  match _instance_connector (self s) with
  | Some c => Some c
  | None => registry (world s) !! instance_keys (self s)
  end.

(** The state once a resolved handle has been stored in the pipe. *)
Definition with_connector (s : State) : State :=
  match _connector (self s), registry (world s) !! connector_keys (self s) with
  | None, Some c => mkState (set__connector c (self s)) (world s)
  | _, _ => s
  end.

Definition with_instance (s : State) : State :=
  match _instance_connector (self s), registry (world s) !! instance_keys (self s) with
  | None, Some c => mkState (set__instance_connector c (self s)) (world s)
  | _, _ => s
  end.

(** [emits P m]: every event of every run of [m] satisfies [P]. *)
Definition emits {A : Type} (P : event -> Prop) (m : M A) : Prop :=
  forall s, Forall P (trace (m s)).

(** ** A small deployment for the examples *)

Module Demo.

(** The three existence probes for a table name, with names left as they
    are by the PostgreSQL quoting. *)
Definition probes (name : string) : list string :=
  [ "SELECT to_regclass('" ++ name ++ "')";
    "SELECT OBJECT_ID('" ++ name ++ "')";
    "SHOW TABLES LIKE '" ++ name ++ "'" ].

(** A probe answers when the database holds a table of that name. *)
Definition table_probe (c : Connector) (db : Store.Db) (q : string) : option pyval :=
  if existsb (fun kv : string * Store.Table => existsb (String.eqb q) (probes (fst kv)))
             (map_to_list (Store.tables db))
  then Some (PInt 1)
  else None.

(** The declared name of a column, an error when it is not declared. *)
Definition declared_column (p : Pipe) (col : string) : outcome pyval :=
  match pipe_columns p with
  | Some cols =>
      match assoc col cols with
      | Some v => Ret v
      | None => Raise (KeyError col)
      end
  | None => Raise (KeyError col)
  end.

Definition externals : Externals :=
  {| pg_capital := fun name => name;
     get_columns := declared_column;
     value := table_probe;
     sync_pipe := fun _ _ _ => RTuple true "synced remotely";
     fetch := fun _ _ => None |}.

Definition sql_main : Connector := mkConnector "sql" "main" "postgresql".
Definition sql_other : Connector := mkConnector "sql" "other" "mssql".
Definition api_main : Connector := mkConnector "api" "main" "".

Definition connectors : gmap string Connector :=
  <["sql:main" := sql_main]> (<["sql:other" := sql_other]> (<["api:main" := api_main]> ∅)).

Definition cpu_parameters : pyval :=
  PDict [("columns", PDict [("datetime", PStr "ts")])].

(** The object that [Pipe(ck, mk, l, parameters, mrsm_instance = keys)]
    builds for a location [l]. *)
Definition pipe (ck mk l : string) (prm : option pyval) (keys : string) : Pipe :=
  {| connector_keys := ck;
     metric_key := mk;
     location_key := Some l;
     instance_keys := keys;
     meta := Models.mkMetaPipe l mk ck;
     _parameters := prm;
     _connector := None;
     _instance_connector := None;
     _id := None;
     _sync_time := None |}.

Definition cpu : Pipe :=
  pipe "sql:main" "cpu" "server1" (Some cpu_parameters) "sql:main".

(** The same stream kept in the second SQL instance. *)
Definition cpu_other : Pipe :=
  pipe "sql:main" "cpu" "server1" (Some cpu_parameters) "sql:other".

(** A stream kept by a remote instance, and one whose source is unknown. *)
Definition mem_remote : Pipe :=
  pipe "sql:main" "mem" "host1" (Some cpu_parameters) "api:main".

Definition orphan : Pipe :=
  pipe "plugin:gone" "mem" "host1" (Some cpu_parameters) "sql:main".

Definition orphan_remote : Pipe :=
  pipe "plugin:gone" "mem" "host1" (Some cpu_parameters) "api:main".

Definition empty_world : World := mkWorld connectors ∅.

(** Rows at 10:00 and 10:01, then a fetch that repeats 10:01 and brings
    10:02 (seconds of the day). *)
Definition stored : DataFrame :=
  mkDF ["ts"; "v"] [(0, [Some 36000; Some 1]); (1, [Some 36060; Some 2])].

Definition fetched : DataFrame :=
  mkDF ["ts"; "v"] [(0, [Some 36060; Some 2]); (1, [Some 36120; Some 3])].

Definition cpu_table : Store.Table :=
  Store.mkTable ["ts"; "v"] [[Some 36000; Some 1]; [Some 36060; Some 2]].

Definition cpu_db : Store.Db :=
  Store.mkDb (<["sql_main_cpu_server1" := cpu_table]> ∅) [(Store.identity_of cpu, 1)].

Definition cpu_world : World := mkWorld connectors (<["sql:main" := cpu_db]> ∅).

End Demo.


(** *** Properties of single events *)

Definition no_backtrack_query (e : event) : Prop :=
  match e with
  | EvGetBacktrackData _ _ _ _ => False
  | _ => True
  end.

(** A backtrack query, if [e] is one, carries these minutes. *)
Definition backtrack_minutes_are (m : pyval) (e : event) : Prop :=
  match e with
  | EvGetBacktrackData _ _ m' _ => m' = m
  | _ => True
  end.

(** A backtrack query, if [e] is one, starts at [b]. *)
Definition backtrack_begins_at (b : Z) (e : event) : Prop :=
  match e with
  | EvGetBacktrackData _ _ _ b' => b' = Some b
  | _ => True
  end.

(** [e] writes rows to a table. *)
Definition is_write (e : event) : Prop :=
  match e with
  | EvToSql _ _ _ => True
  | _ => False
  end.

(** *** How a call may change the state *)

Definition table_at (w : World) (keys name : string) : option Store.Table :=
  Store.tables (default Store.empty_db (dbs w !! keys)) !! name.

(** [extends s s']: from [s] to [s'] the pipe keeps its keys, its parameters
    and its instance, the registry is the same, and every table that was
    there is still there with the same columns and its old rows first. *)
Record extends (s s' : State) : Prop := mkExtends {
  ext_connector_keys : connector_keys (self s') = connector_keys (self s);
  ext_metric_key : metric_key (self s') = metric_key (self s);
  ext_location_key : location_key (self s') = location_key (self s);
  ext_instance_keys : instance_keys (self s') = instance_keys (self s);
  ext_parameters : _parameters (self s') = _parameters (self s);
  ext_registry : registry (world s') = registry (world s);
  ext_instance : resolved_instance s' = resolved_instance s;
  ext_connector : resolved_connector s' = resolved_connector s;
  ext_tables :
    forall keys name t,
      table_at (world s) keys name = Some t ->
      exists extra,
        table_at (world s') keys name
        = Some (Store.mkTable (Store.tcolumns t) (Store.trows t ++ extra))
}.

(** The cached sync time is left alone. *)
Definition keeps_sync_time (s s' : State) : Prop :=
  _sync_time (self s') = _sync_time (self s).

(** [preserves R m]: every run of [m] relates its first state to its last. *)
Definition preserves {A : Type} (R : State -> State -> Prop) (m : M A) : Prop :=
  forall s, R s (post (m s)).

Definition no_write (e : event) : Prop := ~ is_write e.

(** ** Further notions used by the properties below *)

(** Every row of a frame has one cell per column. *)
Definition well_formed (df : DataFrame) : Prop :=
  Forall (fun r : Z * list cell => length (snd r) = length (columns df)) (rows df).

(** The labels of both axes are unique. *)
Definition unique_axes (df : DataFrame) : Prop :=
  unique_str (columns df) = true /\ unique_Z (map fst (rows df)) = true.

(** The pipe declares no datetime column: it has no [columns] mapping, or
    the mapping has no ["datetime"] key. *)
Definition undeclared_datetime (p : Pipe) : Prop :=
  match pipe_columns p with
  | None => True
  | Some cols => assoc "datetime" cols = None
  end.

(** Events of the bookkeeping before the merge. *)
Definition administrative (e : event) : Prop :=
  match e with
  | EvFetch _ _ | EvGetColumns _ _ | EvGetPipeId _ _ | EvRegister _ _ => True
  | _ => False
  end.

Definition no_fetch (e : event) : Prop :=
  match e with
  | EvFetch _ _ => False
  | _ => True
  end.

(** [e] builds no index. *)
Definition no_index (e : event) : Prop :=
  match e with
  | EvCreateIndices _ _ => False
  | _ => True
  end.

(** [e] comes before the merge: no frame written, no index built and no
    backtrack query. *)
Definition before_merge (e : event) : Prop :=
  match e with
  | EvToSql _ _ _ | EvCreateIndices _ _ | EvGetBacktrackData _ _ _ _ => False
  | _ => True
  end.

(** A run without the bootstrap of lines 64 to 72: no frame is written
    before the backtrack query (the bootstrap writes [df.head(0)] ahead of
    it), and no index is built, before or after. *)
Fixpoint no_bootstrap (tr : list event) : Prop :=
  match tr with
  | [] => True
  | EvGetBacktrackData _ _ _ _ :: rest => Forall no_index rest
  | EvToSql _ _ _ :: _ => False
  | EvCreateIndices _ _ :: _ => False
  | _ :: rest => no_bootstrap rest
  end.

Module Demo2.

Definition mqtt_main : Connector := mkConnector "mqtt" "main" "".
Definition sql_lite : Connector := mkConnector "sql" "main" "sqlite".

Definition connectors : gmap string Connector :=
  <["mqtt:main" := mqtt_main]> Demo.connectors.

(** A registry whose ["sql:main"] is a SQLite database. *)
Definition lite_connectors : gmap string Connector :=
  <["sql:main" := sql_lite]> ∅.

(** A stream pushed by a message queue. *)
Definition pushed : Pipe :=
  Demo.pipe "mqtt:main" "temp" "room1" (Some Demo.cpu_parameters) "sql:main".

(** A pipe that declares a backtrack window of one day. *)
Definition windowed : Pipe :=
  Demo.pipe "sql:main" "cpu" "server1"
    (Some (PDict [("fetch", PDict [("backtrack_minutes", PInt 1440)]);
                  ("columns", PDict [("datetime", PStr "ts")])]))
    "sql:main".

(** Externals whose source yields [Demo.fetched]. *)
Definition fetching : Externals :=
  {| pg_capital := pg_capital Demo.externals;
     get_columns := get_columns Demo.externals;
     value := value Demo.externals;
     sync_pipe := sync_pipe Demo.externals;
     fetch := fun _ _ => Some Demo.fetched |}.

(** A pipe whose parameters declare no columns. *)

Definition undeclared : Pipe :=
  Demo.pipe "sql:main" "cpu" "server1" (Some (PDict [("fetch", PDict [])])) "sql:main".

(** A pipe whose instance keys are not registered. *)
Definition lost : Pipe :=
  Demo.pipe "sql:main" "cpu" "server1" (Some Demo.cpu_parameters) "sql:gone".

Definition world : World := mkWorld connectors ∅.

Definition lite_world : World := mkWorld lite_connectors ∅.

(** [Demo.cpu] after its sync time was read from [Demo.cpu_world]. *)
Definition cpu_read : Pipe := set__sync_time (Some 36060) Demo.cpu.

(** Externals whose probe always finds the table. *)
Definition found_externals : Externals :=
  {| pg_capital := pg_capital Demo.externals;
     get_columns := get_columns Demo.externals;
     value := fun _ _ _ => Some (PInt 1);
     sync_pipe := sync_pipe Demo.externals;
     fetch := fetch Demo.externals |}.

End Demo2.

(** ** Reasoning about runs *)

Lemma bind_run {A B : Type} (m : M A) (f : A -> M B) (s : State) :
  bind m f s =
  match res (m s) with
  | Ret a =>
      Run (res (f a (post (m s)))) (post (f a (post (m s))))
          (trace (m s) ++ trace (f a (post (m s))))
  | Raise e => Run (Raise e) (post (m s)) (trace (m s))
  end.
Proof.
  unfold bind. destruct (m s) as [[a|e] s1 t1]; simpl; [|reflexivity].
  now destruct (f a s1).
Qed.

(** A step whose run is known. *)
Lemma bind_ret {A B : Type} (m : M A) (f : A -> M B) (s s1 : State) (a : A) t1 :
  m s = Run (Ret a) s1 t1 ->
  bind m f s = Run (res (f a s1)) (post (f a s1)) (t1 ++ trace (f a s1)).
Proof. intros H. rewrite bind_run, H. reflexivity. Qed.

Lemma bind_raise {A B : Type} (m : M A) (f : A -> M B) (s s1 : State) e t1 :
  m s = Run (Raise e) s1 t1 ->
  bind m f s = Run (Raise e) s1 t1.
Proof. intros H. rewrite bind_run, H. reflexivity. Qed.

(** The primitives under a bind. *)
Lemma bind_ret_l {A B : Type} (a : A) (f : A -> M B) s : bind (ret a) f s = f a s.
Proof. unfold bind, ret. now destruct (f a s). Qed.

Lemma bind_raise_l {A B : Type} e (f : A -> M B) s :
  bind (raise e) f s = Run (Raise e) s [].
Proof. reflexivity. Qed.

Lemma bind_lift_ret {A B : Type} (a : A) (f : A -> M B) s : bind (lift (Ret a)) f s = f a s.
Proof. unfold bind, lift. now destruct (f a s). Qed.

Lemma bind_lift_raise {A B : Type} e (f : A -> M B) s :
  bind (lift (Raise e)) f s = Run (Raise e) s [].
Proof. reflexivity. Qed.

Lemma bind_get_self {B : Type} (f : Pipe -> M B) s : bind get_self f s = f (self s) s.
Proof. unfold bind, get_self. now destruct (f (self s) s). Qed.

Lemma bind_get_world {B : Type} (f : World -> M B) s : bind get_world f s = f (world s) s.
Proof. unfold bind, get_world. now destruct (f (world s) s). Qed.

Lemma bind_emit {B : Type} e (f : unit -> M B) s :
  bind (emit e) f s = Run (res (f tt s)) (post (f tt s)) (e :: trace (f tt s)).
Proof. unfold bind, emit. now destruct (f tt s). Qed.

Lemma bind_warn {B : Type} msg (f : unit -> M B) s :
  bind (warn msg) f s = Run (res (f tt s)) (post (f tt s)) (EvWarn msg :: trace (f tt s)).
Proof. apply bind_emit. Qed.

Lemma bind_modify_self {B : Type} g (f : unit -> M B) s :
  bind (modify_self g) f s = f tt (mkState (g (self s)) (world s)).
Proof. unfold bind, modify_self. now destruct (f tt _). Qed.

Lemma bind_put_world {B : Type} w (f : unit -> M B) s :
  bind (put_world w) f s = f tt (mkState (self s) w).
Proof. unfold bind, put_world. now destruct (f tt _). Qed.

Lemma bind_deref_some {B : Type} attr c (f : Connector -> M B) s :
  bind (deref attr (Some c)) f s = f c s.
Proof. apply bind_ret_l. Qed.

Lemma bind_deref_none {B : Type} attr (f : Connector -> M B) s :
  bind (deref attr None) f s
  = Run (Raise (AttributeError ("'NoneType' object has no attribute '" ++ attr ++ "'"))) s [].
Proof. reflexivity. Qed.

Lemma bind_assoc {A B C : Type} (m : M A) (f : A -> M B) (g : B -> M C) s :
  bind (bind m f) g s = bind m (fun a => bind (f a) g) s.
Proof.
  unfold bind. destruct (m s) as [[a|e] s1 t1]; [|reflexivity].
  destruct (f a s1) as [[b|e] s2 t2]; [|reflexivity].
  destruct (g b s2) as [r s3 t3]. now rewrite app_assoc.
Qed.

Lemma run_eta {A : Type} (r : run A) : Run (res r) (post r) (trace r) = r.
Proof. now destruct r. Qed.

Lemma run_eta_nil {A : Type} (r : run A) : Run (res r) (post r) ([] ++ trace r) = r.
Proof. now destruct r. Qed.

Create Rewrite HintDb run_db.
#[export] Hint Rewrite @bind_assoc @bind_ret_l @bind_raise_l @bind_lift_ret @bind_lift_raise
  @bind_get_self @bind_get_world @bind_emit @bind_warn @bind_modify_self @bind_put_world
  @bind_deref_some @bind_deref_none @run_eta : run_db.

(** A bind that returns went through both halves. *)
Lemma bind_ret_inv {A B : Type} (m : M A) (f : A -> M B) (s : State) (b : B) :
  res (bind m f s) = Ret b ->
  exists a, res (m s) = Ret a
    /\ res (f a (post (m s))) = Ret b
    /\ post (bind m f s) = post (f a (post (m s)))
    /\ trace (bind m f s) = (trace (m s) ++ trace (f a (post (m s))))%list.
Proof.
  rewrite bind_run. destruct (res (m s)) as [a|e]; simpl; intros H; [|discriminate].
  exists a. auto.
Qed.


Lemma emits_ret {A : Type} P (a : A) : emits P (ret a).
Proof. intros s. constructor. Qed.

Lemma emits_raise {A : Type} P e : emits P (@raise A e).
Proof. intros s. constructor. Qed.

Lemma emits_lift {A : Type} P (o : outcome A) : emits P (lift o).
Proof. intros s. constructor. Qed.

Lemma emits_get_self P : emits P get_self.
Proof. intros s. constructor. Qed.

Lemma emits_get_world P : emits P get_world.
Proof. intros s. constructor. Qed.

Lemma emits_modify_self P f : emits P (modify_self f).
Proof. intros s. constructor. Qed.

Lemma emits_put_world P w : emits P (put_world w).
Proof. intros s. constructor. Qed.

Lemma emits_emit (P : event -> Prop) e : P e -> emits P (emit e).
Proof. intros H s. simpl. constructor; [exact H | constructor]. Qed.

Lemma emits_bind {A B : Type} P (m : M A) (f : A -> M B) :
  emits P m -> (forall a, emits P (f a)) -> emits P (bind m f).
Proof.
  intros Hm Hf s. rewrite bind_run.
  destruct (res (m s)) as [a|e]; simpl.
  - apply Forall_app. split; [apply Hm | apply Hf].
  - apply Hm.
Qed.

Lemma emits_weaken {A : Type} (P Q : event -> Prop) (m : M A) :
  (forall e, P e -> Q e) -> emits P m -> emits Q m.
Proof. intros HPQ Hm s. eapply List.Forall_impl; [exact HPQ | apply Hm]. Qed.

Create HintDb emits_db.
#[export] Hint Resolve emits_ret emits_raise emits_lift emits_get_self emits_get_world
  emits_modify_self emits_put_world : emits_db.

(** Walks through a monadic body: binds, branches, the primitives, and the
    lemmas already in [emits_db]; an [emit] leaves the property of its event. *)
Ltac emits_step :=
  match goal with
  | |- emits _ (bind _ _) => apply emits_bind; [|intros ?; cbv beta]
  | |- emits _ (emit _) => apply emits_emit
  | |- emits _ (warn _) => apply emits_emit
  | |- emits _ (match ?x with _ => _ end) => destruct x
  | |- emits _ (if ?b then _ else _) => destruct b
  | |- emits _ _ => solve [auto with emits_db]
  end.

Ltac emits_walk := repeat emits_step.

(** One step of a run: open the first bind and the primitives around it. *)
Ltac run_simpl := repeat (progress (autorewrite with run_db; simpl)).

Lemma connector_run (s : State) :
  connector s = Run (Ret (resolved_connector s)) (with_connector s) [].
Proof.
  unfold connector, resolved_connector, with_connector, parse_keys, bind. simpl.
  destruct (_connector (self s)) as [c|]; simpl; [now destruct s|].
  destruct (registry (world s) !! connector_keys (self s)) as [c|]; simpl; [reflexivity|].
  now destruct s.
Qed.

Lemma instance_connector_run (s : State) :
  instance_connector s = Run (Ret (resolved_instance s)) (with_instance s) [].
Proof.
  unfold instance_connector, resolved_instance, with_instance, parse_keys, bind. simpl.
  destruct (_instance_connector (self s)) as [c|]; simpl; [now destruct s|].
  destruct (registry (world s) !! instance_keys (self s)) as [c|]; simpl; [reflexivity|].
  now destruct s.
Qed.

Lemma str_set__connector c p : str (set__connector c p) = str p.
Proof. reflexivity. Qed.

Lemma str_set__instance_connector c p : str (set__instance_connector c p) = str p.
Proof. reflexivity. Qed.

Lemma str_with_connector s : str (self (with_connector s)) = str (self s).
Proof.
  unfold with_connector.
  destruct (_connector (self s)); [reflexivity|].
  destruct (registry (world s) !! connector_keys (self s)); reflexivity.
Qed.

Lemma str_with_instance s : str (self (with_instance s)) = str (self s).
Proof.
  unfold with_instance.
  destruct (_instance_connector (self s)); [reflexivity|].
  destruct (registry (world s) !! instance_keys (self s)); reflexivity.
Qed.

Lemma world_with_connector s : world (with_connector s) = world s.
Proof.
  unfold with_connector.
  destruct (_connector (self s)); [reflexivity|].
  destruct (registry (world s) !! connector_keys (self s)); reflexivity.
Qed.

Lemma world_with_instance s : world (with_instance s) = world s.
Proof.
  unfold with_instance.
  destruct (_instance_connector (self s)); [reflexivity|].
  destruct (registry (world s) !! instance_keys (self s)); reflexivity.
Qed.

Lemma resolved_instance_with_connector s :
  resolved_instance (with_connector s) = resolved_instance s.
Proof.
  unfold with_connector, resolved_instance.
  destruct (_connector (self s)); [reflexivity|].
  destruct (registry (world s) !! connector_keys (self s)); reflexivity.
Qed.

Lemma resolved_connector_with_connector s :
  resolved_connector (with_connector s) = resolved_connector s.
Proof.
  unfold with_connector, resolved_connector.
  destruct (_connector (self s)) eqn:Hc; [now rewrite Hc|].
  destruct (registry (world s) !! connector_keys (self s)) eqn:Hr; simpl.
  - reflexivity.
  - now rewrite Hc, Hr.
Qed.

Lemma resolved_connector_with_instance s :
  resolved_connector (with_instance s) = resolved_connector s.
Proof.
  unfold with_instance, resolved_connector.
  destruct (_instance_connector (self s)); [reflexivity|].
  destruct (registry (world s) !! instance_keys (self s)); reflexivity.
Qed.

Lemma resolved_instance_with_instance s :
  resolved_instance (with_instance s) = resolved_instance s.
Proof.
  unfold with_instance, resolved_instance.
  destruct (_instance_connector (self s)) eqn:Hc; [now rewrite Hc|].
  destruct (registry (world s) !! instance_keys (self s)) eqn:Hr; simpl.
  - reflexivity.
  - now rewrite Hc, Hr.
Qed.

(** ** The guard on the source connector *)

(** C3.  A pipe whose source connector resolves to nothing, synced without
    rows, gets [(False, "Cannot fetch without a connector")]; nothing is
    fetched, registered, merged or written: the run has no event and leaves
    the pipe and the world as they were. *)
Theorem sync_without_connector (E : Externals) (s : State) :
  res (connector s) = Ret None ->
  sync E None s
  = Run (Ret (RTuple false "Cannot fetch without a connector")) s [].
Proof.
  rewrite connector_run. simpl. intros H. injection H as H.
  unfold sync. rewrite bind_run, connector_run. simpl. rewrite H.
  unfold with_connector.
  unfold resolved_connector in H.
  destruct (_connector (self s)); [discriminate|].
  rewrite H. reflexivity.
Qed.

Lemma sync_without_connector_witness :
  sync Demo.externals None (mkState Demo.orphan Demo.empty_world)
  = Run (Ret (RTuple false "Cannot fetch without a connector"))
        (mkState Demo.orphan Demo.empty_world) [].
Proof. apply sync_without_connector. vm_compute. reflexivity. Defined.

(** ** Delegation to a remote instance *)

(** C4.  When the instance connector of a pipe is of type ["api"] and the
    first step yields rows (they were supplied, or the source connector
    resolves and is asked to fetch), [sync] hands the pipe and the rows to
    the [sync_pipe] of that connector and returns its answer as it is.  The
    only events are the fetch, if any, and the [sync_pipe] call: no column
    lookup, no id lookup or registration, no existence probe, no backtrack
    query and no write; the world is unchanged. *)
Theorem sync_api_forwards (E : Externals) (s : State) (df : option DataFrame)
    (ic : Connector) :
  resolved_instance s = Some ic ->
  type ic = "api" ->
  (df = None -> resolved_connector s <> None) ->
  let r := sync E df s in
  exists rows,
    res r = Ret (sync_pipe E ic (self (post r)) rows)
    /\ world (post r) = world s
    /\ match df with
       | Some d => rows = Some d /\ trace r = [EvSyncPipe ic (str (self s)) rows]
       | None =>
           exists c, resolved_connector s = Some c
             /\ rows = fetch E c (self (with_connector s))
             /\ trace r = [EvFetch c (str (self s)); EvSyncPipe ic (str (self s)) rows]
       end.
Proof.
  intros Hic Hty Hsrc r. subst r.
  assert (Hapi : String.eqb (type ic) "api" = true) by (rewrite Hty; reflexivity).
  destruct df as [d|].
  - exists (Some d). unfold sync, sync_instance.
    erewrite bind_ret by apply instance_connector_run.
    rewrite Hic. unfold conn_sync_pipe. run_simpl. rewrite Hapi. run_simpl.
    rewrite world_with_instance, str_with_instance. auto.
  - destruct (resolved_connector s) as [c|] eqn:Hc; [|now destruct Hsrc].
    exists (fetch E c (self (with_connector s))).
    unfold sync, sync_instance.
    erewrite bind_ret by apply connector_run.
    rewrite Hc. unfold conn_fetch. run_simpl.
    erewrite bind_ret by apply instance_connector_run.
    rewrite resolved_instance_with_connector, Hic. unfold conn_sync_pipe.
    run_simpl. rewrite Hapi. run_simpl.
    rewrite world_with_instance, world_with_connector.
    rewrite str_with_instance, str_with_connector.
    split; [reflexivity|]. split; [reflexivity|].
    exists c. auto.
Qed.

Lemma sync_api_forwards_witness :
  let r := sync Demo.externals (Some Demo.fetched) (mkState Demo.mem_remote Demo.empty_world) in
  exists rows,
    res r = Ret (sync_pipe Demo.externals Demo.api_main (self (post r)) rows)
    /\ world (post r) = Demo.empty_world
    /\ rows = Some Demo.fetched
    /\ trace r = [EvSyncPipe Demo.api_main "sql_main_mem_host1" rows].
Proof.
  destruct (sync_api_forwards Demo.externals (mkState Demo.mem_remote Demo.empty_world)
              (Some Demo.fetched) Demo.api_main) as [rows H].
  - vm_compute. reflexivity.
  - reflexivity.
  - discriminate.
  - exists rows. exact H.
Defined.

(** ** The canonical storage name *)

Lemma append_assoc (a b c : string) : ((a ++ b) ++ c = a ++ (b ++ c))%string.
Proof.
  induction a as [|x a IH]; [reflexivity|].
  change (String x ((a ++ b) ++ c) = String x (a ++ (b ++ c)))%string.
  now rewrite IH.
Qed.

Lemma append_empty_r (a : string) : (a ++ "" = a)%string.
Proof.
  induction a as [|x a IH]; [reflexivity|].
  change (String x (a ++ "") = String x a)%string.
  now rewrite IH.
Qed.

Lemma replace_length (old new : ascii) (s : string) :
  String.length (replace old new s) = String.length s.
Proof. induction s as [|c s IH]; simpl; [reflexivity | now rewrite IH]. Qed.

(** Character by character: [old] becomes [new], the others stay. *)
Lemma replace_get (old new : ascii) (s : string) (n : nat) :
  String.get n (replace old new s)
  = option_map (fun c => if Ascii.eqb c old then new else c) (String.get n s).
Proof.
  revert n. induction s as [|c s IH]; intros n; simpl; [reflexivity|].
  destruct n as [|n]; simpl; [reflexivity | apply IH].
Qed.

(** What the constructor returns, and when. *)
Lemma init_with_location (ck mk l : string) (prm : option pyval) (keys : string) :
  l <> "[None]" ->
  init ck mk (Some l) prm (inl keys) = Ret (Demo.pipe ck mk l prm keys).
Proof.
  intros Hl. apply String.eqb_neq in Hl. unfold init. now rewrite Hl.
Qed.

Lemma init_without_location (ck mk : string) (prm : option pyval)
    (inst : string + Connector) :
  init ck mk None prm inst = Raise (ValueError "location_key: none is not an allowed value")
  /\ init ck mk (Some "[None]") prm inst
     = Raise (ValueError "location_key: none is not an allowed value").
Proof. split; reflexivity. Qed.

Lemma init_ret (ck mk : string) (l : option string) (prm : option pyval)
    (inst : string + Connector) (p : Pipe) :
  init ck mk l prm inst = Ret p ->
  connector_keys p = ck /\ metric_key p = mk /\ location_key p = l /\ l <> None
  /\ _parameters p = prm.
Proof.
  unfold init. destruct l as [l|]; simpl; [|discriminate].
  destruct (String.eqb l "[None]"); simpl; [discriminate|].
  intros H. injection H as <-. simpl. repeat split. discriminate.
Qed.

(** C7 (where the code departs from it).  [__str__] builds the name as the
    claim says: the connector keys with every [:] turned into [_] (and
    nothing else changed), then [_] and the metric key, then [_] and the
    location key exactly when there is one; the pipe built from
    ("sql:main", "cpu", "server1") is named [sql_main_cpu_server1], and a
    pipe object with the keys ("api:prod", "mem") and no location would be
    named [api_prod_mem].  But no such object is built: the constructor
    validates the keys with [MetaPipe], whose [location_key] is a required
    string, and raises for a pipe without location. *)
Theorem canonical_storage_name :
  (forall p : Pipe,
     str p = (replace ":" "_" (connector_keys p) ++ "_" ++ metric_key p
              ++ match location_key p with
                 | Some l => "_" ++ l
                 | None => ""
                 end)%string)
  /\ (forall (keys : string) (n : nat),
        String.get n (replace ":" "_" keys)
        = option_map (fun c => if Ascii.eqb c ":" then "_"%char else c) (String.get n keys))
  /\ (forall keys : string,
        String.length (replace ":" "_" keys) = String.length keys)
  /\ (exists p, init "sql:main" "cpu" (Some "server1") None (inl "sql:main") = Ret p
                /\ str p = "sql_main_cpu_server1")
  /\ (forall p : Pipe,
        connector_keys p = "api:prod" -> metric_key p = "mem" -> location_key p = None ->
        str p = "api_prod_mem")
  /\ init "api:prod" "mem" None None (inl "sql:main")
     = Raise (ValueError "location_key: none is not an allowed value").
Proof.
  split; [|split; [|split; [|split; [|split]]]].
  - intros p. unfold str. destruct (location_key p) as [l|].
    + now rewrite !append_assoc.
    + now rewrite append_empty_r.
  - intros keys n. apply replace_get.
  - intros keys. apply replace_length.
  - eexists. split; reflexivity.
  - intros p Hk Hm Hl. unfold str. now rewrite Hk, Hm, Hl.
  - reflexivity.
Qed.

(** ** Calls on a connector, one by one *)

Lemma conn_get_backtrack_data_run c m b s :
  conn_get_backtrack_data c m b s
  = Run (Ret (Store.get_backtrack_data (db_of (world s) c) (self s) m b)) s
        [EvGetBacktrackData c (str (self s)) m b].
Proof. destruct s. reflexivity. Qed.

Lemma conn_get_sync_time_run c s :
  conn_get_sync_time c s
  = Run (Ret (Store.get_sync_time (db_of (world s) c) (self s))) s
        [EvGetSyncTime c (str (self s))].
Proof. destruct s. reflexivity. Qed.

Lemma conn_get_pipe_id_run c s :
  conn_get_pipe_id c s
  = Run (Ret (Store.get_pipe_id (db_of (world s) c) (self s))) s
        [EvGetPipeId c (str (self s))].
Proof. destruct s. reflexivity. Qed.

Lemma deref_some attr c s : deref attr (Some c) s = Run (Ret c) s [].
Proof. reflexivity. Qed.

Lemma emits_instance_connector P : emits P instance_connector.
Proof. intros s. rewrite instance_connector_run. constructor. Qed.

Lemma emits_connector P : emits P connector.
Proof. intros s. rewrite connector_run. constructor. Qed.

Lemma emits_deref P attr c : emits P (deref attr c).
Proof. destruct c; intros s; constructor. Qed.

Lemma emits_parse_keys P keys : emits P (parse_keys keys).
Proof. intros s. constructor. Qed.

#[export] Hint Resolve emits_instance_connector emits_connector emits_deref
  emits_parse_keys : emits_db.

Lemma emits_get_sync_time : emits no_backtrack_query get_sync_time.
Proof.
  unfold get_sync_time, conn_get_sync_time. emits_walk; exact I.
Qed.

Lemma emits_sync_time : emits no_backtrack_query sync_time.
Proof.
  unfold sync_time. emits_walk; try exact I. apply emits_get_sync_time.
Qed.

(** ** State relations along a run *)

Lemma tables_extend_refl (w : World) keys name t :
  table_at w keys name = Some t ->
  exists extra,
    table_at w keys name = Some (Store.mkTable (Store.tcolumns t) (Store.trows t ++ extra)).
Proof. destruct t as [cols rs]. intros H. exists []. now rewrite app_nil_r. Qed.

Lemma extends_refl s : extends s s.
Proof. constructor; try reflexivity. apply tables_extend_refl. Qed.

Lemma extends_trans s1 s2 s3 : extends s1 s2 -> extends s2 s3 -> extends s1 s3.
Proof.
  intros [] []. constructor; try congruence.
  intros keys name t H.
  destruct (ext_tables0 _ _ _ H) as [x1 H1].
  destruct (ext_tables1 _ _ _ H1) as [x2 H2]. simpl in H2.
  exists (x1 ++ x2)%list. now rewrite app_assoc.
Qed.

Lemma extends_str s s' : extends s s' -> str (self s') = str (self s).
Proof.
  intros H. unfold str.
  now rewrite (ext_connector_keys _ _ H), (ext_metric_key _ _ H), (ext_location_key _ _ H).
Qed.

Lemma extends_parameters s s' : extends s s' -> parameters (self s') = parameters (self s).
Proof. intros H. unfold parameters. now rewrite (ext_parameters _ _ H). Qed.

Lemma extends_pipe_columns s s' :
  extends s s' -> pipe_columns (self s') = pipe_columns (self s).
Proof. intros H. unfold pipe_columns. now rewrite (extends_parameters _ _ H). Qed.

Lemma extends_datetime_column s s' :
  extends s s' -> datetime_column (self s') = datetime_column (self s).
Proof. intros H. unfold datetime_column. now rewrite (extends_pipe_columns _ _ H). Qed.

#[export] Instance extends_reflexive : Reflexive extends := extends_refl.
#[export] Instance extends_transitive : Transitive extends := extends_trans.

#[export] Instance keeps_sync_time_reflexive : Reflexive keeps_sync_time.
Proof. intros s. reflexivity. Qed.

#[export] Instance keeps_sync_time_transitive : Transitive keeps_sync_time.
Proof. intros s1 s2 s3. unfold keeps_sync_time. congruence. Qed.

Section Preserves.

Context (R : State -> State -> Prop) `{!Reflexive R} `{!Transitive R}.

Lemma preserves_ret {A : Type} (a : A) : preserves R (ret a).
Proof. intros s. simpl. reflexivity. Qed.

Lemma preserves_raise {A : Type} e : preserves R (@raise A e).
Proof. intros s. simpl. reflexivity. Qed.

Lemma preserves_lift {A : Type} (o : outcome A) : preserves R (lift o).
Proof. intros s. simpl. reflexivity. Qed.

Lemma preserves_get_self : preserves R get_self.
Proof. intros s. simpl. reflexivity. Qed.

Lemma preserves_get_world : preserves R get_world.
Proof. intros s. simpl. reflexivity. Qed.

Lemma preserves_emit e : preserves R (emit e).
Proof. intros s. simpl. reflexivity. Qed.

Lemma preserves_deref attr c : preserves R (deref attr c).
Proof. destruct c; intros s; simpl; reflexivity. Qed.

Lemma preserves_parse_keys keys : preserves R (parse_keys keys).
Proof. intros s. simpl. reflexivity. Qed.

Lemma preserves_bind {A B : Type} (m : M A) (f : A -> M B) :
  preserves R m -> (forall a, preserves R (f a)) -> preserves R (bind m f).
Proof.
  intros Hm Hf s. rewrite bind_run.
  destruct (res (m s)) as [a|e]; simpl.
  - transitivity (post (m s)); [apply Hm | apply Hf].
  - apply Hm.
Qed.

End Preserves.

Create HintDb preserves_db.
#[export] Hint Resolve preserves_ret preserves_raise preserves_lift preserves_get_self
  preserves_get_world preserves_emit preserves_deref preserves_parse_keys : preserves_db.

Ltac preserves_step :=
  match goal with
  | |- preserves _ (bind _ _) => apply preserves_bind; [typeclasses eauto| |intros ?; cbv beta]
  | |- preserves _ (warn _) => apply preserves_emit; typeclasses eauto
  | |- preserves _ (match Some _ with _ => _ end) => cbn beta iota
  | |- preserves _ (match ?x with _ => _ end) => destruct x
  | |- preserves _ (if ?b then _ else _) => destruct b
  | |- preserves _ _ => solve [auto with preserves_db typeclass_instances]
  end.

Ltac preserves_walk := repeat preserves_step.

Lemma extends_with_instance s : extends s (with_instance s).
Proof.
  constructor.
  1-6: unfold with_instance;
       destruct (_instance_connector (self s));
       [|destruct (registry (world s) !! instance_keys (self s))]; reflexivity.
  - apply resolved_instance_with_instance.
  - apply resolved_connector_with_instance.
  - rewrite world_with_instance. apply tables_extend_refl.
Qed.

Lemma extends_with_connector s : extends s (with_connector s).
Proof.
  constructor.
  1-6: unfold with_connector;
       destruct (_connector (self s));
       [|destruct (registry (world s) !! connector_keys (self s))]; reflexivity.
  - apply resolved_instance_with_connector.
  - apply resolved_connector_with_connector.
  - rewrite world_with_connector. apply tables_extend_refl.
Qed.

Lemma preserves_extends_instance_connector : preserves extends instance_connector.
Proof. intros s. rewrite instance_connector_run. apply extends_with_instance. Qed.

Lemma preserves_extends_connector : preserves extends connector.
Proof. intros s. rewrite connector_run. apply extends_with_connector. Qed.

Lemma preserves_extends_set__id v : preserves extends (modify_self (set__id v)).
Proof. intros s. constructor; try reflexivity. apply tables_extend_refl. Qed.

Lemma preserves_extends_set__sync_time v : preserves extends (modify_self (set__sync_time v)).
Proof. intros s. constructor; try reflexivity. apply tables_extend_refl. Qed.

Lemma preserves_extends_del__sync_time : preserves extends (modify_self del__sync_time).
Proof. intros s. constructor; try reflexivity. apply tables_extend_refl. Qed.

#[export] Hint Resolve preserves_extends_instance_connector preserves_extends_connector
  preserves_extends_set__id preserves_extends_set__sync_time
  preserves_extends_del__sync_time : preserves_db.

Lemma preserves_extends_conn_get_sync_time c : preserves extends (conn_get_sync_time c).
Proof. intros s. rewrite conn_get_sync_time_run. apply extends_refl. Qed.

Lemma preserves_extends_conn_get_pipe_id c : preserves extends (conn_get_pipe_id c).
Proof. intros s. rewrite conn_get_pipe_id_run. apply extends_refl. Qed.

Lemma preserves_extends_conn_get_backtrack_data c m b :
  preserves extends (conn_get_backtrack_data c m b).
Proof. intros s. rewrite conn_get_backtrack_data_run. apply extends_refl. Qed.

#[export] Hint Resolve preserves_extends_conn_get_sync_time
  preserves_extends_conn_get_pipe_id preserves_extends_conn_get_backtrack_data
  : preserves_db.

Lemma preserves_extends_get_sync_time : preserves extends get_sync_time.
Proof. unfold get_sync_time. preserves_walk. Qed.

Lemma preserves_extends_sync_time : preserves extends sync_time.
Proof. unfold sync_time. preserves_walk. apply preserves_extends_get_sync_time. Qed.

#[export] Hint Resolve preserves_extends_get_sync_time preserves_extends_sync_time
  : preserves_db.

(** ** The backtrack window of [get_backtrack_data] *)

(** Which minutes reach the connector, and that a returning call asked it. *)
Lemma get_backtrack_data_query (s : State) (arg : pyval) (begin : option Z) :
  let r := get_backtrack_data arg begin s in
  let passed := match declared_backtrack_minutes (self s) with
                | Ret v => v
                | Raise _ => arg
                end in
  Forall (backtrack_minutes_are passed) (trace r)
  /\ (forall df, res r = Ret df ->
        exists c b, In (EvGetBacktrackData c (str (self s)) passed b) (trace r)).
Proof.
  intros r m. subst r. unfold get_backtrack_data. rewrite bind_run. simpl. fold m.
  split.
  - match goal with
    | |- Forall _ (trace (?body s)) => assert (H : emits (backtrack_minutes_are m) body)
    end.
    { emits_walk.
      - eapply emits_weaken; [|apply emits_sync_time].
        intros [] H; try exact I; destruct H.
      - unfold conn_get_backtrack_data. emits_walk. reflexivity. }
    apply H.
  - intros df Hret.
    apply bind_ret_inv in Hret as (b & Hb & Hret & _ & ->).
    apply bind_ret_inv in Hret as (ic & Hic & Hret & _ & ->).
    apply bind_ret_inv in Hret as (c & Hc & Hret & _ & ->).
    rewrite conn_get_backtrack_data_run. simpl.
    exists c, b. rewrite !in_app_iff. right. right. right. left.
    f_equal.
    match goal with
    | |- str (self (post (deref _ _ ?s2))) = _ =>
        assert (H2 : extends s s2)
    end.
    { etransitivity; [|apply preserves_extends_instance_connector].
      destruct begin; [apply extends_refl | apply preserves_extends_sync_time]. }
    destruct ic as [c'|]; simpl in *; [|discriminate].
    apply (extends_str _ _ H2).
Qed.


(** The lookup [parameters['fetch']['backtrack_minutes']] succeeds exactly
    when the parameters are a mapping with a mapping under ["fetch"] that
    has the key ["backtrack_minutes"]. *)
Lemma declared_backtrack_minutes_ret (p : Pipe) (v : pyval) :
  declared_backtrack_minutes p = Ret v <->
  exists kvs fkvs,
    parameters p = PDict kvs
    /\ assoc "fetch" kvs = Some (PDict fkvs)
    /\ assoc "backtrack_minutes" fkvs = Some v.
Proof.
  unfold declared_backtrack_minutes, getitem. split.
  - destruct (parameters p) as [| | | |kvs]; try discriminate.
    destruct (assoc "fetch" kvs) as [[| | | |fkvs]|] eqn:Hf; try discriminate.
    destruct (assoc "backtrack_minutes" fkvs) as [v'|] eqn:Hb; [|discriminate].
    intros H. injection H as <-. eauto.
  - intros (kvs & fkvs & -> & -> & ->). reflexivity.
Qed.

(** C10.  When the parameters of the pipe hold a [backtrack_minutes] entry
    under [fetch], its value is what [get_backtrack_data] hands to the
    instance connector, whatever the caller passed; the caller's argument is
    handed on only when there is no such entry.  Every backtrack query of
    the run carries these minutes, and a run that returns has made one. *)
Theorem backtrack_minutes_override (s : State) (arg : pyval) (begin : option Z) :
  let r := get_backtrack_data arg begin s in
  (forall kvs fkvs v,
      parameters (self s) = PDict kvs ->
      assoc "fetch" kvs = Some (PDict fkvs) ->
      assoc "backtrack_minutes" fkvs = Some v ->
      Forall (backtrack_minutes_are v) (trace r)
      /\ (forall df, res r = Ret df ->
            exists c b, In (EvGetBacktrackData c (str (self s)) v b) (trace r)))
  /\ ((forall kvs fkvs v,
         parameters (self s) = PDict kvs ->
         assoc "fetch" kvs = Some (PDict fkvs) ->
         assoc "backtrack_minutes" fkvs = Some v ->
         False) ->
      Forall (backtrack_minutes_are arg) (trace r)
      /\ (forall df, res r = Ret df ->
            exists c b, In (EvGetBacktrackData c (str (self s)) arg b) (trace r))).
Proof.
  intros r. subst r. pose proof (get_backtrack_data_query s arg begin) as H.
  cbv zeta in H. split.
  - intros kvs fkvs v Hp Hf Hb.
    assert (Hd : declared_backtrack_minutes (self s) = Ret v)
      by (apply declared_backtrack_minutes_ret; eauto).
    now rewrite Hd in H.
  - intros Hno.
    destruct (declared_backtrack_minutes (self s)) as [v|e] eqn:Hd; [|exact H].
    apply declared_backtrack_minutes_ret in Hd as (kvs & fkvs & Hp & Hf & Hb).
    destruct (Hno kvs fkvs v Hp Hf Hb).
Qed.

Lemma backtrack_minutes_override_witness :
  let declared := get_backtrack_data (PInt 5) (Some 36000)
                    (mkState Demo2.windowed Demo.cpu_world) in
  let plain := get_backtrack_data (PInt 5) (Some 36000)
                 (mkState Demo.cpu Demo.cpu_world) in
  (Forall (backtrack_minutes_are (PInt 1440)) (trace declared)
   /\ exists c b,
        In (EvGetBacktrackData c "sql_main_cpu_server1" (PInt 1440) b) (trace declared))
  /\ (Forall (backtrack_minutes_are (PInt 5)) (trace plain)
      /\ exists c b,
           In (EvGetBacktrackData c "sql_main_cpu_server1" (PInt 5) b) (trace plain)).
Proof.
  cbv zeta. split.
  - destruct (backtrack_minutes_override (mkState Demo2.windowed Demo.cpu_world)
                (PInt 5) (Some 36000)) as [H _].
    destruct (H [("fetch", PDict [("backtrack_minutes", PInt 1440)]);
                 ("columns", PDict [("datetime", PStr "ts")])]
                [("backtrack_minutes", PInt 1440)] (PInt 1440)
                eq_refl eq_refl eq_refl) as [Hall Hq].
    split; [exact Hall|].
    apply (Hq (Store.get_backtrack_data Demo.cpu_db Demo2.windowed (PInt 1440) (Some 36000))).
    vm_compute. reflexivity.
  - destruct (backtrack_minutes_override (mkState Demo.cpu Demo.cpu_world)
                (PInt 5) (Some 36000)) as [_ H].
    destruct H as [Hall Hq].
    + intros kvs fkvs v Hp Hf Hb. injection Hp as <-. discriminate.
    + split; [exact Hall|].
      apply (Hq (Store.get_backtrack_data Demo.cpu_db Demo.cpu (PInt 5) (Some 36000))).
      vm_compute. reflexivity.
Defined.

(** ** The lazy attributes [id] and [sync_time] *)

Lemma id_run (s : State) :
  id s =
  if cached_id_is_truthy (self s)
  then Run (match _id (self s) with
            | Some v => Ret v
            | None => Raise (AttributeError "'Pipe' object has no attribute '_id'")
            end) s []
  else
    match resolved_instance s with
    | Some c =>
        let v := Store.get_pipe_id (db_of (world s) c) (self (with_instance s)) in
        Run (Ret v) (mkState (set__id v (self (with_instance s))) (world s))
            [EvGetPipeId c (str (self s))]
    | None =>
        Run (Raise (AttributeError "'NoneType' object has no attribute 'get_pipe_id'"))
            (with_instance s) []
    end.
Proof.
  unfold id. rewrite bind_get_self.
  destruct (cached_id_is_truthy (self s)) eqn:Hc; simpl.
  - run_simpl. destruct s as [p w]; simpl. destruct (_id p); reflexivity.
  - rewrite !bind_assoc.
    erewrite bind_ret by apply instance_connector_run.
    destruct (resolved_instance s) as [c|]; run_simpl; [|reflexivity].
    erewrite bind_ret by apply conn_get_pipe_id_run.
    run_simpl. rewrite world_with_instance, str_with_instance. reflexivity.
Qed.

Lemma sync_time_uncached (s : State) :
  _sync_time (self s) = None ->
  res (sync_time s) = res (get_sync_time s)
  /\ trace (sync_time s) = trace (get_sync_time s)
  /\ (res (get_sync_time s) = Ret None ->
      _sync_time (self (post (sync_time s))) = None).
Proof.
  intros Hc. unfold sync_time. rewrite bind_get_self, Hc, !bind_assoc.
  destruct (get_sync_time s) as [[v|e] s1 t1] eqn:Hg.
  - erewrite bind_ret by apply Hg. run_simpl.
    destruct v as [t|]; run_simpl; rewrite ?app_nil_r; repeat split; congruence.
  - erewrite bind_raise by apply Hg. simpl. repeat split; congruence.
Qed.

Lemma sync_time_none (s : State) :
  res (sync_time s) = Ret None ->
  _sync_time (self (post (sync_time s))) = None.
Proof.
  unfold sync_time. rewrite bind_get_self.
  destruct (_sync_time (self s)) as [[t|]|] eqn:Hc.
  - run_simpl. rewrite Hc. simpl. discriminate.
  - run_simpl. rewrite Hc. run_simpl. reflexivity.
  - rewrite !bind_assoc.
    destruct (get_sync_time s) as [[v|e] s1 t1] eqn:Hg.
    + erewrite bind_ret by apply Hg. run_simpl.
      destruct v as [t|]; run_simpl; [discriminate | reflexivity].
    + erewrite bind_raise by apply Hg. simpl. discriminate.
Qed.

Lemma instance_cached_after (s : State) (c : Connector) :
  resolved_instance s = Some c ->
  _instance_connector (self (with_instance s)) = Some c.
Proof.
  unfold resolved_instance, with_instance.
  destruct (_instance_connector (self s)) as [c0|] eqn:Hc; [now rewrite Hc|].
  intros ->. reflexivity.
Qed.

Lemma connector_cached_after (s : State) (c : Connector) :
  resolved_connector s = Some c ->
  _connector (self (with_connector s)) = Some c.
Proof.
  unfold resolved_connector, with_connector.
  destruct (_connector (self s)) as [c0|] eqn:Hc; [now rewrite Hc|].
  intros ->. reflexivity.
Qed.

Lemma identity_of_extends (s s' : State) :
  extends s s' -> Store.identity_of (self s') = Store.identity_of (self s).
Proof.
  intros H. unfold Store.identity_of.
  now rewrite (ext_connector_keys _ _ H), (ext_metric_key _ _ H), (ext_location_key _ _ H).
Qed.

(** C9.  A falsy id is not kept as a usable cache entry.  When no truthy
    id is cached and [get_pipe_id] of the instance connector returns a falsy
    id (none, or zero), the [id] property calls it, returns that id, and
    leaves a cached [_id] that is not truthy: the next access calls
    [get_pipe_id] again and returns what the instance knows by then.  When
    [get_sync_time] returns [None], the [sync_time] property returns [None];
    whenever the property yields [None], the entry [_sync_time] is gone
    afterwards, and the next access runs [get_sync_time] again, which, for a
    pipe that declares a datetime column, queries the instance connector. *)
Theorem falsy_attributes_not_cached :
  (forall (s : State) (c : Connector),
      cached_id_is_truthy (self s) = false ->
      resolved_instance s = Some c ->
      truthy_id (Store.get_pipe_id (db_of (world s) c) (self s)) = false ->
      let s' := post (id s) in
      res (id s) = Ret (Store.get_pipe_id (db_of (world s) c) (self s))
      /\ trace (id s) = [EvGetPipeId c (str (self s))]
      /\ cached_id_is_truthy (self s') = false
      /\ forall w' : World,
           res (id (mkState (self s') w'))
           = Ret (Store.get_pipe_id (db_of w' c) (self s))
           /\ trace (id (mkState (self s') w')) = [EvGetPipeId c (str (self s))])
  /\ (forall s : State,
        _sync_time (self s) = None ->
        res (get_sync_time s) = Ret None ->
        res (sync_time s) = Ret None)
  /\ (forall s : State,
        res (sync_time s) = Ret None ->
        let s' := post (sync_time s) in
        _sync_time (self s') = None
        /\ res (sync_time s') = res (get_sync_time s')
        /\ trace (sync_time s') = trace (get_sync_time s')
        /\ (forall c col,
              resolved_instance s' = Some c ->
              datetime_column (self s') = Some col ->
              trace (sync_time s') = [EvGetSyncTime c (str (self s'))])).
Proof.
  split; [|split].
  - intros s c Hc Hic Hv s'. subst s'.
    pose proof (extends_with_instance s) as H1.
    assert (Hid : Store.get_pipe_id (db_of (world s) c) (self (with_instance s))
                  = Store.get_pipe_id (db_of (world s) c) (self s)).
    { unfold Store.get_pipe_id. now rewrite (identity_of_extends _ _ H1). }
    rewrite (id_run s), Hc, Hic. cbv zeta. cbn [res post trace self world]. rewrite Hid.
    split; [reflexivity|]. split; [reflexivity|]. split.
    { unfold cached_id_is_truthy. simpl. exact Hv. }
    intros w'.
    set (v := Store.get_pipe_id (db_of (world s) c) (self s)) in *.
    set (s1 := mkState (set__id v (self (with_instance s))) w').
    assert (Hc1 : cached_id_is_truthy (self s1) = false)
      by (unfold cached_id_is_truthy; simpl; exact Hv).
    assert (Hcache : _instance_connector (self s1) = Some c)
      by (simpl; now apply instance_cached_after).
    assert (Hic1 : resolved_instance s1 = Some c)
      by (unfold resolved_instance; now rewrite Hcache).
    assert (Hw1 : with_instance s1 = s1)
      by (unfold with_instance; now rewrite Hcache).
    rewrite (id_run s1), Hc1, Hic1. cbv zeta. cbn [res post trace]. rewrite Hw1.
    assert (Hident : Store.identity_of (self s1) = Store.identity_of (self s))
      by apply (identity_of_extends _ _ H1).
    split.
    + unfold Store.get_pipe_id. now rewrite Hident.
    + f_equal. f_equal. change (str (self s1)) with (str (self (with_instance s))).
      apply (extends_str _ _ H1).
  - intros s Hc Hg.
    destruct (sync_time_uncached s Hc) as (Hr & _ & _). now rewrite Hr.
  - intros s Hnone s'. subst s'.
    pose proof (sync_time_none s Hnone) as Hgone.
    destruct (sync_time_uncached _ Hgone) as (Hr & Ht & _).
    repeat split; try assumption.
    intros c col Hic Hcol. rewrite Ht.
    unfold get_sync_time. rewrite bind_get_self.
    unfold datetime_column in Hcol.
    destruct (pipe_columns (self (post (sync_time s)))) as [cols|]; [|discriminate].
    destruct (assoc "datetime" cols); [|discriminate].
    erewrite bind_ret by apply instance_connector_run.
    rewrite Hic. run_simpl.
    now rewrite str_with_instance.
Qed.

(** An unregistered pipe: the id is asked for, not kept as truthy, and asked
    for again once the pipe is registered; a pipe without stored rows has no
    sync time, and none is cached. *)
Lemma falsy_attributes_not_cached_witness :
  let s := mkState Demo.cpu Demo.empty_world in
  (res (id s) = Ret None
   /\ trace (id s) = [EvGetPipeId Demo.sql_main "sql_main_cpu_server1"]
   /\ cached_id_is_truthy (self (post (id s))) = false
   /\ res (id (mkState (self (post (id s))) Demo.cpu_world)) = Ret (Some 1))
  /\ (res (sync_time s) = Ret None
      /\ _sync_time (self (post (sync_time s))) = None).
Proof.
  cbv zeta.
  destruct falsy_attributes_not_cached as (Hid & Hst & Hnone).
  split.
  - destruct (Hid (mkState Demo.cpu Demo.empty_world) Demo.sql_main)
      as (Hres & Htr & Hcache & Hlater).
    + reflexivity.
    + vm_compute. reflexivity.
    + vm_compute. reflexivity.
    + split; [rewrite Hres; vm_compute; reflexivity|].
      split; [rewrite Htr; reflexivity|].
      split; [exact Hcache|].
      destruct (Hlater Demo.cpu_world) as [Hl _]. rewrite Hl.
      vm_compute. reflexivity.
  - assert (H0 : res (sync_time (mkState Demo.cpu Demo.empty_world)) = Ret None).
    { apply Hst; [reflexivity | vm_compute; reflexivity]. }
    split; [exact H0|].
    now destruct (Hnone (mkState Demo.cpu Demo.empty_world) H0) as [Hgone _].
Defined.

(** ** The existence probe *)

Lemma get_connector_run ty lbl f s :
  bind (get_connector ty lbl) f s
  = f (registry (world s) !! (ty ++ ":" ++ lbl)%string) s
  :> run bool.
Proof. unfold get_connector, parse_keys. now run_simpl. Qed.

#[local] Arguments flavor_in f fs : simpl never.

(** Every probe of [exists] goes to the connector registered as ["sql:main"],
    whichever instance the pipe has. *)
Lemma exists_asks_sql_main (E : Externals) (s : State) (c : Connector) (q : string) :
  In (EvValue c q) (trace (exists_ E s)) ->
  registry (world s) !! "sql:main" = Some c.
Proof.
  unfold exists_.
  erewrite bind_ret by apply instance_connector_run.
  rewrite get_connector_run, world_with_instance.
  change ("sql" ++ ":" ++ "main")%string with "sql:main".
  destruct (registry (world s) !! "sql:main") as [m|]; run_simpl; [|tauto].
  unfold conn_value.
  destruct (flavor_in (flavor m) ["timescaledb"; "postgresql"]); run_simpl.
  { intros [H|[]]. now injection H as -> _. }
  destruct (String.eqb (flavor m) "mssql"); run_simpl.
  { intros [H|[]]. now injection H as -> _. }
  destruct (flavor_in (flavor m) ["mysql"; "mariadb"]); run_simpl.
  { intros [H|[]]. now injection H as -> _. }
  tauto.
Qed.

(** C8 (where the code departs from it).  The pipe [Demo.cpu_other] lives in
    the instance ["sql:other"], a SQL Server database, while ["sql:main"] is
    PostgreSQL.  Its [exists] sends the PostgreSQL probe to ["sql:main"]; the
    instance of the pipe is never asked, and a table that is present there
    is reported missing. *)
Theorem exists_probes_sql_main_not_instance :
  let s := mkState Demo.cpu_other
             (mkWorld Demo.connectors (<["sql:other" := Demo.cpu_db]> ∅)) in
  resolved_instance s = Some Demo.sql_other
  /\ table_at (world s) "sql:other" (str (self s)) = Some Demo.cpu_table
  /\ res (exists_ Demo.externals s) = Ret false
  /\ trace (exists_ Demo.externals s)
     = [EvValue Demo.sql_main "SELECT to_regclass('sql_main_cpu_server1')"].
Proof. vm_compute. auto. Qed.

(** ** Removing the data already seen *)

(** C1 (where the code departs from it).  Storage holds the rows of 10:00
    and 10:01; the fetch repeats the row of 10:01 and brings 10:02.  The
    backtrack query returns both stored rows, labelled 0 and 1, and the
    fetched rows are labelled 0 and 1 as well, so [isin] compares the
    repeated row with the row of 10:00 only: it is kept, and appended a
    second time.  Syncing the same rows once more appends both again. *)
Theorem sync_appends_seen_row :
  let s := mkState Demo.cpu Demo.cpu_world in
  let first := sync Demo.externals (Some Demo.fetched) s in
  let second := sync Demo.externals (Some Demo.fetched) (post first) in
  unseen Demo.fetched (Some Demo.stored) = Ret Demo.fetched
  /\ res first = Ret (RTuple true "Success")
  /\ In (EvGetBacktrackData Demo.sql_main "sql_main_cpu_server1" (PInt 0) (Some 36000))
        (trace first)
  /\ Store.get_backtrack_data Demo.cpu_db Demo.cpu (PInt 0) (Some 36000) = Some Demo.stored
  /\ option_map Store.trows (table_at (world (post first)) "sql:main" "sql_main_cpu_server1")
     = Some [ [Some 36000; Some 1]; [Some 36060; Some 2];
              [Some 36060; Some 2]; [Some 36120; Some 3] ]
  /\ res second = Ret (RTuple true "Success")
  /\ In (EvToSql Demo.sql_main "sql_main_cpu_server1" Demo.fetched) (trace second)
  /\ option_map Store.trows (table_at (world (post second)) "sql:main" "sql_main_cpu_server1")
     = Some [ [Some 36000; Some 1]; [Some 36060; Some 2];
              [Some 36060; Some 2]; [Some 36120; Some 3];
              [Some 36060; Some 2]; [Some 36120; Some 3] ].
Proof.
  cbv zeta.
  repeat match goal with |- _ /\ _ => split end;
    vm_compute;
    solve [reflexivity | repeat (first [left; reflexivity | right])].
Qed.

(** ** Writes to the store *)

Lemma table_at_set_db (w : World) (c : Connector) (db : Store.Db) (keys name : string) :
  table_at (set_db w c db) keys name
  = if decide (keys = keys_of c) then Store.tables db !! name else table_at w keys name.
Proof.
  unfold table_at, set_db. simpl.
  destruct (decide (keys = keys_of c)) as [->|Hne].
  - now rewrite lookup_insert_eq.
  - rewrite lookup_insert_ne by congruence. reflexivity.
Qed.

Lemma table_at_db_of (w : World) (c : Connector) (name : string) :
  table_at w (keys_of c) name = Store.tables (db_of w c) !! name.
Proof. reflexivity. Qed.

Lemma tables_register (db : Store.Db) (p : Pipe) :
  Store.tables (Store.register db p) = Store.tables db.
Proof. unfold Store.register. now destruct (Store.lookup_pipe _ _). Qed.

(** Replacing the database of [c] by one whose tables extend the old ones
    extends the state. *)
Lemma extends_set_db (s : State) (c : Connector) (db : Store.Db) :
  (forall name t,
      Store.tables (db_of (world s) c) !! name = Some t ->
      exists extra,
        Store.tables db !! name
        = Some (Store.mkTable (Store.tcolumns t) (Store.trows t ++ extra))) ->
  extends s (mkState (self s) (set_db (world s) c db)).
Proof.
  intros Hdb. constructor; try reflexivity.
  intros keys name t Ht. simpl. rewrite table_at_set_db.
  destruct (decide (keys = keys_of c)) as [->|Hne].
  - apply Hdb. exact Ht.
  - now apply tables_extend_refl.
Qed.

Lemma conn_register_run c s :
  conn_register c s
  = Run (Ret tt)
        (mkState (self s) (set_db (world s) c (Store.register (db_of (world s) c) (self s))))
        [EvRegister c (str (self s))].
Proof. unfold conn_register. now run_simpl. Qed.

Lemma preserves_extends_conn_register c : preserves extends (conn_register c).
Proof.
  intros s. rewrite conn_register_run. simpl. apply extends_set_db.
  intros name t Ht. rewrite tables_register.
  destruct t as [cols rs]. exists []. now rewrite app_nil_r.
Qed.

Lemma to_sql_extends (db db' : Store.Db) (name : string) (df : DataFrame) :
  Store.to_sql db name df = Ret db' ->
  forall name' t,
    Store.tables db !! name' = Some t ->
    exists extra,
      Store.tables db' !! name'
      = Some (Store.mkTable (Store.tcolumns t) (Store.trows t ++ extra)).
Proof.
  unfold Store.to_sql. intros H name' t Ht.
  destruct (Store.tables db !! name) as [t0|] eqn:Hname.
  - destruct (bool_decide (columns df = Store.tcolumns t0)); [|discriminate].
    injection H as <-. simpl.
    destruct (decide (name = name')) as [->|Hne].
    + rewrite lookup_insert_eq. exists (map snd (rows df)). congruence.
    + rewrite lookup_insert_ne by assumption. rewrite Ht.
      destruct t as [cols rs]. exists []. now rewrite app_nil_r.
  - injection H as <-. simpl.
    rewrite lookup_insert_ne by congruence. rewrite Ht.
    destruct t as [cols rs]. exists []. now rewrite app_nil_r.
Qed.

Lemma preserves_extends_conn_to_sql c name df : preserves extends (conn_to_sql c name df).
Proof.
  intros s. unfold conn_to_sql. run_simpl.
  destruct (Store.to_sql (db_of (world s) c) name df) as [db'|e] eqn:Hsql; run_simpl.
  - apply extends_set_db. eapply to_sql_extends. exact Hsql.
  - apply extends_refl.
Qed.

Lemma preserves_extends_conn_create_indices c : preserves extends (conn_create_indices c).
Proof. intros s. unfold conn_create_indices. run_simpl. apply extends_refl. Qed.

Lemma preserves_extends_conn_value E c q : preserves extends (conn_value E c q).
Proof. intros s. unfold conn_value. run_simpl. apply extends_refl. Qed.

Lemma preserves_extends_conn_fetch E c : preserves extends (conn_fetch E c).
Proof. intros s. unfold conn_fetch. run_simpl. apply extends_refl. Qed.

Lemma preserves_extends_conn_sync_pipe E c df : preserves extends (conn_sync_pipe E c df).
Proof. intros s. unfold conn_sync_pipe. run_simpl. apply extends_refl. Qed.

#[export] Hint Resolve preserves_extends_conn_register preserves_extends_conn_to_sql
  preserves_extends_conn_create_indices preserves_extends_conn_value
  preserves_extends_conn_fetch preserves_extends_conn_sync_pipe : preserves_db.

Lemma preserves_extends_id : preserves extends id.
Proof. unfold id. preserves_walk. Qed.

Lemma preserves_extends_register : preserves extends register.
Proof. unfold register. preserves_walk. Qed.

Lemma preserves_extends_get_backtrack_data m b : preserves extends (get_backtrack_data m b).
Proof. unfold get_backtrack_data. preserves_walk. Qed.

Lemma preserves_extends_exists_ E : preserves extends (exists_ E).
Proof. unfold exists_, get_connector. preserves_walk. Qed.

#[export] Hint Resolve preserves_extends_id preserves_extends_register
  preserves_extends_get_backtrack_data preserves_extends_exists_ : preserves_db.

Lemma preserves_extends_sync_merge E df : preserves extends (sync_merge E df).
Proof. unfold sync_merge. preserves_walk. Qed.

#[export] Hint Resolve preserves_extends_sync_merge : preserves_db.

Lemma preserves_extends_sync_local E df : preserves extends (sync_local E df).
Proof. unfold sync_local. preserves_walk. Qed.

#[export] Hint Resolve preserves_extends_sync_local : preserves_db.

Lemma preserves_extends_sync_instance E df : preserves extends (sync_instance E df).
Proof. unfold sync_instance. preserves_walk. Qed.

#[export] Hint Resolve preserves_extends_sync_instance : preserves_db.

(** Whatever [sync] does, and however it ends, the pipe keeps its identity
    and no stored row is lost. *)
Lemma preserves_extends_sync E df : preserves extends (sync E df).
Proof. unfold sync. preserves_walk. Qed.

(** ** The most recent timestamp only moves forward *)

Lemma series_max_app (l l' : list cell) (a : Z) :
  series_max l = Some a ->
  exists b, series_max (l ++ l') = Some b /\ a <= b.
Proof.
  revert a. induction l as [|[x|] l IH]; intros a H; simpl in *.
  - discriminate.
  - destruct (series_max l) as [m|] eqn:Hm.
    + injection H as <-. destruct (IH m eq_refl) as (b & -> & Hb).
      exists (Z.max x b). split; [reflexivity | lia].
    + injection H as <-. destruct (series_max (l ++ l')) as [m'|].
      * exists (Z.max x m'). split; [reflexivity | lia].
      * exists x. split; [reflexivity | lia].
  - apply IH. exact H.
Qed.

Lemma store_get_sync_time_mono (w w' : World) (c : Connector) (p p' : Pipe) (t0 : Z) :
  (forall keys name t,
      table_at w keys name = Some t ->
      exists extra,
        table_at w' keys name
        = Some (Store.mkTable (Store.tcolumns t) (Store.trows t ++ extra))) ->
  str p' = str p ->
  datetime_column p' = datetime_column p ->
  Store.get_sync_time (db_of w c) p = Some t0 ->
  exists t1, Store.get_sync_time (db_of w' c) p' = Some t1 /\ t0 <= t1.
Proof.
  intros Htab Hstr Hdt. unfold Store.get_sync_time. rewrite Hstr, Hdt.
  rewrite <- !table_at_db_of.
  destruct (table_at w (keys_of c) (str p)) as [t|] eqn:Ht; [|discriminate].
  destruct (Htab _ _ _ Ht) as [extra ->]. simpl.
  destruct (datetime_column p) as [dt|]; [|discriminate].
  destruct (index_of dt (Store.tcolumns t)) as [j|]; [|discriminate].
  rewrite map_app. apply series_max_app.
Qed.

Lemma get_sync_time_run (s : State) :
  get_sync_time s =
  match pipe_columns (self s) with
  | None =>
      Run (Ret None) s
          [EvWarn ("No columns found for pipe '" ++ str (self s) ++ "'. Is pipe registered?")]
  | Some cols =>
      match assoc "datetime" cols with
      | None => Run (Ret None) s [EvWarn (edit_hint (self s))]
      | Some _ =>
          match resolved_instance s with
          | Some c =>
              Run (Ret (Store.get_sync_time (db_of (world s) c) (self (with_instance s))))
                  (with_instance s)
                  [EvGetSyncTime c (str (self s))]
          | None =>
              Run (Raise (AttributeError "'NoneType' object has no attribute 'get_sync_time'"))
                  (with_instance s) []
          end
      end
  end.
Proof.
  unfold get_sync_time. rewrite bind_get_self.
  destruct (pipe_columns (self s)) as [cols|]; [|now run_simpl].
  destruct (assoc "datetime" cols); [|now run_simpl].
  erewrite bind_ret by apply instance_connector_run.
  destruct (resolved_instance s) as [c|]; run_simpl; [|reflexivity].
  rewrite conn_get_sync_time_run.
  now rewrite world_with_instance, str_with_instance.
Qed.

(** The fresh answer of [get_sync_time] never decreases along [extends]. *)
Lemma get_sync_time_mono (s s' : State) (t0 : Z) :
  extends s s' ->
  res (get_sync_time s) = Ret (Some t0) ->
  exists t1, res (get_sync_time s') = Ret (Some t1) /\ t0 <= t1.
Proof.
  intros Hext. rewrite !get_sync_time_run.
  rewrite (extends_pipe_columns _ _ Hext), (ext_instance _ _ Hext).
  destruct (pipe_columns (self s)) as [cols|]; [|discriminate].
  destruct (assoc "datetime" cols); [|discriminate].
  destruct (resolved_instance s) as [c|]; [|discriminate].
  simpl. intros H. injection H as H.
  pose proof (extends_with_instance s) as Hs.
  pose proof (extends_with_instance s') as Hs'.
  destruct (store_get_sync_time_mono (world s) (world s') c
              (self (with_instance s)) (self (with_instance s')) t0) as (t1 & Ht1 & Hle).
  - apply (ext_tables _ _ Hext).
  - rewrite (extends_str _ _ Hs), (extends_str _ _ Hs'). apply (extends_str _ _ Hext).
  - rewrite (extends_datetime_column _ _ Hs), (extends_datetime_column _ _ Hs').
    apply (extends_datetime_column _ _ Hext).
  - exact H.
  - exists t1. now rewrite Ht1.
Qed.

(** *** [sync] leaves a cached sync time alone *)

Lemma preserves_kst_modify_self f :
  (forall p, _sync_time (f p) = _sync_time p) ->
  preserves keeps_sync_time (modify_self f).
Proof. intros H s. apply H. Qed.

Lemma preserves_kst_put_world w : preserves keeps_sync_time (put_world w).
Proof. intros s. reflexivity. Qed.

Lemma preserves_kst_set__connector c : preserves keeps_sync_time (modify_self (set__connector c)).
Proof. now apply preserves_kst_modify_self. Qed.

Lemma preserves_kst_set__instance_connector c :
  preserves keeps_sync_time (modify_self (set__instance_connector c)).
Proof. now apply preserves_kst_modify_self. Qed.

Lemma preserves_kst_set__id v : preserves keeps_sync_time (modify_self (set__id v)).
Proof. now apply preserves_kst_modify_self. Qed.

#[export] Hint Resolve preserves_kst_put_world preserves_kst_set__connector
  preserves_kst_set__instance_connector preserves_kst_set__id : preserves_db.

Lemma preserves_kst_instance_connector : preserves keeps_sync_time instance_connector.
Proof. unfold instance_connector. preserves_walk. Qed.

Lemma preserves_kst_connector : preserves keeps_sync_time connector.
Proof. unfold connector. preserves_walk. Qed.

#[export] Hint Resolve preserves_kst_instance_connector preserves_kst_connector
  : preserves_db.

Lemma preserves_kst_id : preserves keeps_sync_time id.
Proof. unfold id, conn_get_pipe_id. preserves_walk. Qed.

Lemma preserves_kst_register : preserves keeps_sync_time register.
Proof. unfold register, conn_register. preserves_walk. Qed.

Lemma preserves_kst_exists_ E : preserves keeps_sync_time (exists_ E).
Proof. unfold exists_, get_connector, conn_value. preserves_walk. Qed.

Lemma preserves_kst_conn_to_sql c name df : preserves keeps_sync_time (conn_to_sql c name df).
Proof. unfold conn_to_sql. preserves_walk. Qed.

Lemma preserves_kst_get_backtrack_data m b :
  preserves keeps_sync_time (get_backtrack_data m (Some b)).
Proof. unfold get_backtrack_data, conn_get_backtrack_data. preserves_walk. Qed.

#[export] Hint Resolve preserves_kst_id preserves_kst_register preserves_kst_exists_
  preserves_kst_conn_to_sql preserves_kst_get_backtrack_data : preserves_db.

Lemma preserves_kst_sync_merge E df : preserves keeps_sync_time (sync_merge E df).
Proof. unfold sync_merge, conn_create_indices. preserves_walk. Qed.

#[export] Hint Resolve preserves_kst_sync_merge : preserves_db.

Lemma preserves_kst_sync E df : preserves keeps_sync_time (sync E df).
Proof.
  unfold sync, sync_instance, sync_local, conn_fetch, conn_sync_pipe. preserves_walk.
Qed.

Lemma sync_time_cached (s : State) (v : option Z) :
  _sync_time (self s) = Some v ->
  res (sync_time s) = Ret v.
Proof.
  intros Hc. unfold sync_time. rewrite bind_get_self, Hc. run_simpl.
  rewrite Hc. destruct v; now run_simpl.
Qed.

(** C6.  After a sync that succeeds and writes rows, the sync time of the
    pipe is not older than before: the value of the [sync_time] property,
    if it was not null, is still not null and at least as recent, and so is
    the most recent timestamp that [get_sync_time] reads from storage. *)
Theorem sync_time_monotonic (E : Externals) (s : State) (df : option DataFrame) :
  res (sync E df s) = Ret (RTuple true "Success") ->
  Exists is_write (trace (sync E df s)) ->
  let s' := post (sync E df s) in
  (forall t0, res (sync_time s) = Ret (Some t0) ->
     exists t1, res (sync_time s') = Ret (Some t1) /\ t0 <= t1)
  /\ (forall t0, res (get_sync_time s) = Ret (Some t0) ->
        exists t1, res (get_sync_time s') = Ret (Some t1) /\ t0 <= t1).
Proof.
  intros _ _ s'.
  assert (Hext : extends s s') by apply preserves_extends_sync.
  assert (Hkeep : keeps_sync_time s s') by apply preserves_kst_sync.
  split.
  - intros t0 H0. unfold keeps_sync_time in Hkeep.
    destruct (_sync_time (self s)) as [v|] eqn:Hc.
    + rewrite (sync_time_cached s v Hc) in H0. injection H0 as ->.
      exists t0. split; [|lia]. now apply sync_time_cached.
    + destruct (sync_time_uncached s Hc) as (Hr & _ & _).
      destruct (sync_time_uncached s' Hkeep) as (Hr' & _ & _).
      rewrite Hr in H0. rewrite Hr'. now apply (get_sync_time_mono s s').
  - intros t0. now apply get_sync_time_mono.
Qed.

Lemma sync_time_monotonic_witness :
  let s := mkState Demo.cpu Demo.cpu_world in
  let s' := post (sync Demo.externals (Some Demo.fetched) s) in
  res (get_sync_time s) = Ret (Some 36060)
  /\ exists t1, res (get_sync_time s') = Ret (Some t1) /\ 36060 <= t1.
Proof.
  cbv zeta. split; [vm_compute; reflexivity|].
  apply (sync_time_monotonic Demo.externals (mkState Demo.cpu Demo.cpu_world)
           (Some Demo.fetched)).
  - vm_compute. reflexivity.
  - vm_compute.
    repeat (first [apply Exists_cons_hd; exact I | apply Exists_cons_tl]).
  - vm_compute. reflexivity.
Defined.

(** ** Where the backtrack window starts *)

Lemma emits_nbq_id : emits no_backtrack_query id.
Proof. unfold id, conn_get_pipe_id. emits_walk; exact I. Qed.

Lemma emits_nbq_register : emits no_backtrack_query register.
Proof. unfold register, conn_register. emits_walk; exact I. Qed.

Lemma emits_nbq_exists_ E : emits no_backtrack_query (exists_ E).
Proof. unfold exists_, get_connector, conn_value. emits_walk; exact I. Qed.

Lemma emits_nbq_conn_to_sql c name df : emits no_backtrack_query (conn_to_sql c name df).
Proof. unfold conn_to_sql. emits_walk; exact I. Qed.

Lemma emits_nbq_conn_create_indices c : emits no_backtrack_query (conn_create_indices c).
Proof. unfold conn_create_indices. emits_walk; exact I. Qed.

Lemma emits_nbq_conn_sync_pipe E c df : emits no_backtrack_query (conn_sync_pipe E c df).
Proof. unfold conn_sync_pipe. emits_walk; exact I. Qed.

#[export] Hint Resolve emits_nbq_id emits_nbq_register emits_nbq_exists_
  emits_nbq_conn_to_sql emits_nbq_conn_create_indices emits_nbq_conn_sync_pipe
  : emits_db.

Lemma no_backtrack_begins_at b e : no_backtrack_query e -> backtrack_begins_at b e.
Proof. destruct e; simpl; tauto. Qed.

(** A step without backtrack query, then the rest. *)
Lemma trace_bind_quiet {A B : Type} (b : Z) (m : M A) (f : A -> M B) (s : State) :
  emits no_backtrack_query m ->
  (forall a, res (m s) = Ret a ->
     Forall (backtrack_begins_at b) (trace (f a (post (m s))))) ->
  Forall (backtrack_begins_at b) (trace (bind m f s)).
Proof.
  intros Hm Hf. rewrite bind_run.
  assert (Hq : Forall (backtrack_begins_at b) (trace (m s))).
  { eapply List.Forall_impl; [apply no_backtrack_begins_at | apply Hm]. }
  destruct (res (m s)) as [a|e]; simpl; [|exact Hq].
  apply Forall_app. split; [exact Hq | now apply Hf].
Qed.

Lemma oldest_declared (p : Pipe) (d : DataFrame) (col : string) (cs : list cell) (t : Z) :
  datetime_column p = Some col ->
  column d col = Some cs ->
  series_min cs = Some t ->
  oldest p d = Ret t.
Proof.
  unfold datetime_column, oldest. intros Hcol Hcs Hmin.
  destruct (pipe_columns p) as [cols|]; [|discriminate].
  destruct (assoc "datetime" cols) as [[| | |c|]|]; try discriminate.
  injection Hcol as ->. now rewrite Hcs, Hmin.
Qed.

Lemma emits_begin_get_backtrack_data (m : pyval) (b : Z) :
  emits (backtrack_begins_at b) (get_backtrack_data m (Some b)).
Proof.
  intros s. unfold get_backtrack_data. rewrite bind_get_self.
  cbn beta iota zeta. rewrite bind_ret_l.
  match goal with
  | |- Forall _ (trace (?body s)) => assert (H : emits (backtrack_begins_at b) body)
  end.
  { unfold conn_get_backtrack_data. emits_walk. reflexivity. }
  apply H.
Qed.

Section Begin.

Variable E : Externals.
Variables (d : DataFrame) (col : string) (cs : list cell) (t : Z).
Hypothesis Hcs : column d col = Some cs.
Hypothesis Hmin : series_min cs = Some t.

Let begin : Z := round_time_down t - timedelta_minutes 1.

Lemma sync_merge_begin (s : State) :
  datetime_column (self s) = Some col ->
  Forall (backtrack_begins_at begin) (trace (sync_merge E d s)).
Proof.
  intros Hcol. unfold sync_merge.
  apply trace_bind_quiet; [auto with emits_db|]. intros sql_connector _.
  pose proof (preserves_extends_instance_connector s) as H1.
  set (s1 := post (instance_connector s)) in *.
  apply trace_bind_quiet; [auto with emits_db|]. intros found _.
  pose proof (preserves_extends_exists_ E s1) as H2.
  set (s2 := post (exists_ E s1)) in *.
  apply trace_bind_quiet.
  { destruct found; simpl; emits_walk; auto with emits_db. }
  intros _ _.
  match goal with
  | |- context [post (?m s2)] =>
      assert (H3 : extends s2 (post (m s2)));
      [ destruct found; simpl; [apply extends_refl|];
        revert s2 H2; generalize s1; intros s1' s2 _;
        match goal with
        | |- extends _ (post (?body _)) =>
            assert (Hp : preserves extends body) by preserves_walk; apply Hp
        end
      | set (s3 := post (m s2)) in * ]
  end.
  rewrite bind_get_self.
  assert (Hcol3 : datetime_column (self s3) = Some col).
  { rewrite (extends_datetime_column _ _ H3), (extends_datetime_column _ _ H2),
      (extends_datetime_column _ _ H1). exact Hcol. }
  rewrite (oldest_declared _ _ _ _ _ Hcol3 Hcs Hmin), bind_lift_ret.
  fold begin.
  match goal with
  | |- Forall _ (trace (?body s3)) =>
      assert (Hb : emits (backtrack_begins_at begin) body)
  end.
  { apply emits_bind; [apply emits_begin_get_backtrack_data|]. intros bt.
    eapply emits_weaken; [apply no_backtrack_begins_at|].
    emits_walk; auto with emits_db. }
  apply Hb.
Qed.

Let declares (s : State) : Prop := datetime_column (self s) = Some col.

Lemma declares_extends (s s' : State) : extends s s' -> declares s -> declares s'.
Proof. unfold declares. intros H. now rewrite (extends_datetime_column _ _ H). Qed.

(** A quiet step that keeps the pipe, then the rest from a state that still
    declares the column. *)
Lemma trace_bind_declares {A B : Type} (m : M A) (f : A -> M B) (s : State) :
  emits no_backtrack_query m ->
  preserves extends m ->
  declares s ->
  (forall a s1, declares s1 -> Forall (backtrack_begins_at begin) (trace (f a s1))) ->
  Forall (backtrack_begins_at begin) (trace (bind m f s)).
Proof.
  intros Hm Hp Hs Hf. apply trace_bind_quiet; [exact Hm|].
  intros a _. apply Hf. eapply declares_extends; [apply Hp | exact Hs].
Qed.

Lemma sync_local_begin (s : State) :
  declares s ->
  Forall (backtrack_begins_at begin) (trace (sync_local E (Some d) s)).
Proof.
  intros Hs. unfold sync_local.
  rewrite bind_get_self, bind_emit. simpl. constructor; [exact I|].
  destruct (get_columns E (self s) "datetime") as [v|e];
    [rewrite bind_lift_ret | rewrite bind_lift_raise; constructor].
  apply trace_bind_declares;
    [auto with emits_db | auto with preserves_db | exact Hs |].
  intros i s1 Hs1.
  apply trace_bind_declares; [| | exact Hs1 |].
  { destruct (negb (truthy_id i)); auto with emits_db. }
  { destruct (negb (truthy_id i)); auto with preserves_db typeclass_instances. }
  intros _ s2 Hs2. now apply sync_merge_begin.
Qed.

Lemma sync_begin (s : State) :
  declares s ->
  Forall (backtrack_begins_at begin) (trace (sync E (Some d) s)).
Proof.
  intros Hs. unfold sync, sync_instance.
  apply trace_bind_declares;
    [auto with emits_db | auto with preserves_db | exact Hs |].
  intros ic s1 Hs1.
  destruct ic as [c|]; [rewrite bind_deref_some | rewrite bind_deref_none; constructor].
  destruct (String.eqb (type c) "api").
  - eapply List.Forall_impl; [apply no_backtrack_begins_at | apply emits_nbq_conn_sync_pipe].
  - now apply sync_local_begin.
Qed.

Lemma in_trace_bind {A B : Type} (m : M A) (f : A -> M B) (s : State) (a : A) (e : event) :
  res (m s) = Ret a ->
  In e (trace (f a (post (m s)))) ->
  In e (trace (bind m f s)).
Proof.
  intros Hr Hin. rewrite bind_run, Hr. simpl. apply in_or_app. now right.
Qed.

Lemma sync_merge_queries (s : State) (v : result) :
  declares s ->
  res (sync_merge E d s) = Ret v ->
  exists c m,
    In (EvGetBacktrackData c (str (self s)) m (Some begin)) (trace (sync_merge E d s)).
Proof.
  intros Hs. unfold sync_merge. intros H.
  pose proof (preserves_extends_instance_connector s) as H1.
  destruct (bind_ret_inv _ _ _ _ H) as (sc & Hr1 & H' & _). clear H.
  set (s1 := post (instance_connector s)) in *.
  pose proof (preserves_extends_exists_ E s1) as H2.
  destruct (bind_ret_inv _ _ _ _ H') as (found & Hr2 & H & _). clear H'.
  set (s2 := post (exists_ E s1)) in *.
  destruct (bind_ret_inv _ _ _ _ H) as ([] & Hr3 & H' & _). clear H.
  match type of Hr3 with
  | res (?m s2) = _ =>
      assert (H3 : extends s2 (post (m s2)));
      [ assert (Hp : preserves extends m)
          by (destruct found; simpl; preserves_walk);
        apply Hp
      | set (s3 := post (m s2)) in * ]
  end.
  assert (Hs3 : declares s3).
  { eapply declares_extends; [exact H3|]. eapply declares_extends; [exact H2|].
    eapply declares_extends; [exact H1 | exact Hs]. }
  assert (Hstr : str (self s3) = str (self s)).
  { rewrite (extends_str _ _ H3), (extends_str _ _ H2). apply (extends_str _ _ H1). }
  rewrite bind_get_self in H'.
  rewrite (oldest_declared _ _ _ _ _ Hs3 Hcs Hmin), bind_lift_ret in H'.
  fold begin in H'.
  destruct (bind_ret_inv _ _ _ _ H') as (bt & Hr4 & _ & _ & Ht4).
  destruct (get_backtrack_data_query s3 (PInt 0) (Some begin)) as [_ Hq].
  destruct (Hq bt Hr4) as (c & b & Hin).
  assert (Hb : b = Some begin).
  { pose proof (emits_begin_get_backtrack_data (PInt 0) begin s3) as Hall.
    rewrite List.Forall_forall in Hall. apply (Hall _ Hin). }
  subst b. rewrite Hstr in Hin.
  eexists c, _.
  eapply in_trace_bind; [exact Hr1|]. fold s1.
  eapply in_trace_bind; [exact Hr2|]. fold s2.
  eapply in_trace_bind; [exact Hr3|]. fold s3.
  rewrite bind_get_self.
  rewrite (oldest_declared _ _ _ _ _ Hs3 Hcs Hmin), bind_lift_ret.
  fold begin. rewrite Ht4. apply in_or_app. left. exact Hin.
Qed.

Lemma sync_queries (s : State) (ic : Connector) (v : result) :
  declares s ->
  resolved_instance s = Some ic ->
  type ic <> "api" ->
  res (sync E (Some d) s) = Ret v ->
  exists c m,
    In (EvGetBacktrackData c (str (self s)) m (Some begin)) (trace (sync E (Some d) s)).
Proof.
  intros Hs Hic Hty. unfold sync, sync_instance.
  erewrite bind_ret by apply instance_connector_run.
  rewrite Hic, bind_deref_some.
  apply String.eqb_neq in Hty. rewrite Hty. simpl.
  pose proof (extends_with_instance s) as H1.
  set (s1 := with_instance s) in *.
  assert (Hs1 : declares s1) by (eapply declares_extends; eauto).
  unfold sync_local. rewrite bind_get_self, bind_emit. simpl.
  destruct (get_columns E (self s1) "datetime") as [dt|e];
    [rewrite bind_lift_ret | rewrite bind_lift_raise; discriminate].
  intros H.
  destruct (bind_ret_inv _ _ _ _ H) as (i & Hr2 & H' & _). clear H.
  pose proof (preserves_extends_id s1) as H2.
  set (s2 := post (id s1)) in *.
  destruct (bind_ret_inv _ _ _ _ H') as ([] & Hr3 & H & _). clear H'.
  match type of Hr3 with
  | res (?m s2) = _ =>
      assert (H3 : extends s2 (post (m s2)));
      [ assert (Hp : preserves extends m)
          by (destruct (negb (truthy_id i)); auto with preserves_db typeclass_instances);
        apply Hp
      | set (s3 := post (m s2)) in * ]
  end.
  assert (Hs3 : declares s3).
  { eapply declares_extends; [exact H3|]. eapply declares_extends; [exact H2 | exact Hs1]. }
  destruct (sync_merge_queries s3 v Hs3 H) as (c & m & Hin).
  assert (Hstr : str (self s3) = str (self s)).
  { rewrite (extends_str _ _ H3), (extends_str _ _ H2). apply (extends_str _ _ H1). }
  rewrite Hstr in Hin.
  exists c, m. right.
  eapply in_trace_bind; [exact Hr2|]. fold s2.
  eapply in_trace_bind; [exact Hr3|]. fold s3. exact Hin.
Qed.

End Begin.

Lemma series_min_spec (cs : list cell) (t : Z) :
  series_min cs = Some t ->
  In (Some t) cs /\ (forall x, In (Some x) cs -> t <= x).
Proof.
  revert t. induction cs as [|[x|] cs IH]; intros t H; simpl in *.
  - discriminate.
  - destruct (series_min cs) as [m|] eqn:Hm.
    + injection H as <-. destruct (IH m eq_refl) as [Hin Hle]. split.
      * destruct (Z.min_spec x m) as [[_ ->]|[_ ->]]; auto.
      * intros y [Hy|Hy]; [injection Hy as <-; lia|].
        specialize (Hle y Hy). lia.
    + injection H as <-. split; [now left|].
      intros y [Hy|Hy]; [injection Hy as <-; lia|].
      exfalso. clear IH. induction cs as [|[z|] cs IH]; simpl in *.
      * exact Hy.
      * destruct (series_min cs); discriminate.
      * destruct Hy as [Hy|Hy]; [discriminate | auto].
  - destruct (IH t H) as [Hin Hle]. split; [now right|].
    intros y [Hy|Hy]; [discriminate | auto].
Qed.

Lemma round_time_down_floor (t : Z) :
  round_time_down t <= t < round_time_down t + 60 /\ round_time_down t mod 60 = 0.
Proof.
  unfold round_time_down. split.
  - pose proof (Z.mul_div_le t 60). pose proof (Z.mod_pos_bound t 60).
    pose proof (Z.div_mod t 60). lia.
  - rewrite Z.mul_comm. apply Z.mod_mul. lia.
Qed.

(** Without a rows argument, when the source yields rows, [sync] goes on
    with these rows as if they had been handed in, after the fetch. *)
Lemma sync_fetched (E : Externals) (s : State) (c : Connector) (d : DataFrame) :
  resolved_connector s = Some c ->
  fetch E c (self (with_connector s)) = Some d ->
  sync E None s
  = Run (res (sync E (Some d) (with_connector s)))
        (post (sync E (Some d) (with_connector s)))
        (EvFetch c (str (self s)) :: trace (sync E (Some d) (with_connector s))).
Proof.
  intros Hc Hfetch. unfold sync.
  erewrite bind_ret by apply connector_run.
  rewrite Hc. unfold conn_fetch.
  rewrite bind_assoc, bind_get_self, bind_assoc, bind_emit, bind_ret_l, Hfetch.
  now rewrite str_with_connector.
Qed.

(** C5.  Let the pipe declare the datetime column [col], let [d] be the
    fetched rows (handed to [sync], or yielded by the fetch that [sync]
    makes when no rows are handed in) and let [t] be the oldest timestamp of
    that column in [d].  Then every backtrack query that [sync] makes starts
    at [t] floored to the minute, minus one minute; and on the local path
    (the instance connector is not of type ["api"]) a sync that returns has
    made that query. *)
Theorem sync_backtrack_begin (E : Externals) (s : State) (df : option DataFrame)
    (d : DataFrame) (col : string) (cs : list cell) (t : Z) :
  datetime_column (self s) = Some col ->
  (df = Some d
   \/ (df = None
       /\ exists c, resolved_connector s = Some c
                    /\ fetch E c (self (with_connector s)) = Some d)) ->
  column d col = Some cs ->
  series_min cs = Some t ->
  let r := sync E df s in
  let begin := 60 * (t / 60) - 60 in
  (In (Some t) cs /\ forall x, In (Some x) cs -> t <= x)
  /\ (begin + 60 <= t < begin + 120 /\ begin mod 60 = 0)
  /\ Forall (backtrack_begins_at begin) (trace r)
  /\ (forall ic v,
        resolved_instance s = Some ic ->
        type ic <> "api" ->
        res r = Ret v ->
        exists c m, In (EvGetBacktrackData c (str (self s)) m (Some begin)) (trace r)).
Proof.
  intros Hcol Hrows Hcs Hmin r begin. subst r.
  assert (Hb : round_time_down t - timedelta_minutes 1 = begin) by reflexivity.
  split; [now apply series_min_spec|].
  split.
  { pose proof (round_time_down_floor t) as [Hf Hm].
    unfold round_time_down in *. subst begin. split; [lia|].
    replace (60 * (t / 60) - 60) with (60 * (t / 60) + (-1) * 60) by lia.
    now rewrite Z.mod_add by lia. }
  destruct Hrows as [->|(-> & c & Hc & Hfetch)].
  - split.
    + rewrite <- Hb. now apply (sync_begin E d col cs t Hcs Hmin).
    + intros ic v Hic Hty Hret. rewrite <- Hb.
      now apply (sync_queries E d col cs t Hcs Hmin s ic v).
  - pose proof (extends_with_connector s) as H1.
    assert (Hcol1 : datetime_column (self (with_connector s)) = Some col)
      by now rewrite (extends_datetime_column _ _ H1).
    rewrite (sync_fetched E s c d Hc Hfetch). cbn [res trace]. split.
    + constructor; [exact I|].
      rewrite <- Hb. now apply (sync_begin E d col cs t Hcs Hmin).
    + intros ic v Hic Hty Hret. rewrite <- Hb.
      destruct (sync_queries E d col cs t Hcs Hmin (with_connector s) ic v)
        as (c' & m & Hin); try assumption.
      { now rewrite (ext_instance _ _ H1). }
      rewrite (extends_str _ _ H1) in Hin.
      exists c', m. now right.
Qed.

(** Rows handed in, and the same rows yielded by the fetch. *)
Lemma sync_backtrack_begin_witness :
  let s := mkState Demo.cpu Demo.cpu_world in
  let given := sync Demo.externals (Some Demo.fetched) s in
  let fetched := sync Demo2.fetching None s in
  (Forall (backtrack_begins_at 36000) (trace given)
   /\ exists c m, In (EvGetBacktrackData c "sql_main_cpu_server1" m (Some 36000)) (trace given))
  /\ (Forall (backtrack_begins_at 36000) (trace fetched)
      /\ exists c m,
           In (EvGetBacktrackData c "sql_main_cpu_server1" m (Some 36000)) (trace fetched)).
Proof.
  cbv zeta. split.
  - destruct (sync_backtrack_begin Demo.externals (mkState Demo.cpu Demo.cpu_world)
                (Some Demo.fetched) Demo.fetched "ts" [Some 36060; Some 36120] 36060)
      as (_ & _ & Hall & Hq).
    + reflexivity.
    + now left.
    + reflexivity.
    + reflexivity.
    + split; [exact Hall|].
      apply (Hq Demo.sql_main (RTuple true "Success")).
      * vm_compute. reflexivity.
      * discriminate.
      * vm_compute. reflexivity.
  - destruct (sync_backtrack_begin Demo2.fetching (mkState Demo.cpu Demo.cpu_world)
                None Demo.fetched "ts" [Some 36060; Some 36120] 36060)
      as (_ & _ & Hall & Hq).
    + reflexivity.
    + right. split; [reflexivity|]. exists Demo.sql_main.
      split; [vm_compute; reflexivity | reflexivity].
    + reflexivity.
    + reflexivity.
    + split; [exact Hall|].
      apply (Hq Demo.sql_main (RTuple true "Success")).
      * vm_compute. reflexivity.
      * discriminate.
      * vm_compute. reflexivity.
Defined.

(** ** What [sync] answers when there is nothing to sync *)

Lemma emits_no_write_id : emits no_write id.
Proof. unfold id, conn_get_pipe_id. emits_walk; intros []. Qed.

Lemma id_returns (s : State) (ic : Connector) :
  resolved_instance s = Some ic ->
  exists i, res (id s) = Ret i.
Proof.
  intros Hic. rewrite id_run.
  destruct (cached_id_is_truthy (self s)) eqn:Hc.
  - unfold cached_id_is_truthy in Hc. destruct (_id (self s)) as [v|]; [|discriminate].
    now exists v.
  - rewrite Hic. simpl. eauto.
Qed.

(** The lines of [sync] after an empty fetch, for a source that is not a
    message queue. *)
Lemma sync_local_nothing (E : Externals) (s : State) (c ic : Connector) (v : pyval) :
  resolved_connector s = Some c ->
  type c <> "mqtt" ->
  resolved_instance s = Some ic ->
  get_columns E (self s) "datetime" = Ret v ->
  let r := sync_local E None s in
  res r = Ret (RValue PNone)
  /\ (exists before,
        trace r = (before ++ [EvWarn ("Was not able to sync '" ++ str (self s) ++ "'")])%list)
  /\ Forall no_write (trace r).
Proof.
  intros Hc Hty Hic Hgc r. subst r. unfold sync_local.
  rewrite bind_get_self, bind_emit, Hgc, bind_lift_ret.
  destruct (id_returns s ic Hic) as [i Hi].
  pose proof (preserves_extends_id s) as H1.
  pose proof (emits_no_write_id s) as W1.
  destruct (id s) as [ri s1 t1] eqn:Hid. simpl in Hi, H1, W1. subst ri.
  erewrite bind_ret by apply Hid.
  assert (Hreg : exists s2 t2,
             (if negb (truthy_id i) then register else ret tt) s1 = Run (Ret tt) s2 t2
             /\ extends s1 s2 /\ Forall no_write t2).
  { destruct (negb (truthy_id i)).
    - unfold register. erewrite bind_ret by apply instance_connector_run.
      rewrite (ext_instance _ _ H1), Hic, bind_deref_some, conn_register_run.
      simpl. eexists _, _. split; [reflexivity|]. split.
      + etransitivity; [apply extends_with_instance|].
        apply (preserves_extends_conn_register ic (with_instance s1)).
      + repeat constructor. intros [].
    - exists s1, []. split; [reflexivity|]. split; [apply extends_refl | constructor]. }
  destruct Hreg as (s2 & t2 & Hrun & H2 & W2).
  erewrite bind_ret by apply Hrun.
  erewrite bind_ret by apply connector_run.
  rewrite (ext_connector _ _ H2), (ext_connector _ _ H1), Hc, bind_deref_some.
  apply String.eqb_neq in Hty. rewrite Hty.
  rewrite bind_get_self, bind_warn. simpl.
  rewrite (extends_str _ _ (extends_with_connector s2)),
    (extends_str _ _ H2), (extends_str _ _ H1).
  split; [reflexivity|]. split.
  - exists (EvGetColumns (str (self s)) "datetime" :: t1 ++ t2)%list.
    simpl. now rewrite <- app_assoc.
  - constructor; [intros []|].
    apply Forall_app. split; [exact W1|].
    apply Forall_app. split; [exact W2|]. repeat constructor. intros [].
Qed.

(** C2, as the code has it.  Without rows and without a source connector
    [sync] returns the pair [(False, "Cannot fetch without a connector")].
    When the fetch yields nothing, the source is not of type ["mqtt"], the
    instance is not of type ["api"] and the datetime column lookup returns,
    [sync] warns ["Was not able to sync '<pipe>'"] and returns [None]: no
    pair, no exception, and no row is written. *)
Theorem sync_expected_failures (E : Externals) (s : State) :
  (res (connector s) = Ret None ->
   res (sync E None s) = Ret (RTuple false "Cannot fetch without a connector"))
  /\ (forall (c ic : Connector) (v : pyval),
        resolved_connector s = Some c ->
        type c <> "mqtt" ->
        fetch E c (self (with_connector s)) = None ->
        resolved_instance s = Some ic ->
        type ic <> "api" ->
        get_columns E (self (with_instance (with_connector s))) "datetime" = Ret v ->
        let r := sync E None s in
        res r = Ret (RValue PNone)
        /\ (exists before,
              trace r
              = (before ++ [EvWarn ("Was not able to sync '" ++ str (self s) ++ "'")])%list)
        /\ Forall no_write (trace r)).
Proof.
  split.
  - intros H.
    assert (Hrun : sync E None s
                   = Run (Ret (RTuple false "Cannot fetch without a connector")) s []).
    { revert H. rewrite connector_run. simpl. intros H. injection H as H.
      unfold sync. erewrite bind_ret by apply connector_run. rewrite H.
      unfold with_connector. unfold resolved_connector in H.
      destruct (_connector (self s)); [discriminate|]. now rewrite H. }
    now rewrite Hrun.
  - intros c ic v Hc Hty Hfetch Hic Hapi Hgc r. subst r.
    pose proof (extends_with_connector s) as H1.
    pose proof (extends_with_instance (with_connector s)) as H2.
    destruct (sync_local_nothing E (with_instance (with_connector s)) c ic v)
      as (Hres & (before & Htr) & Hw).
    { now rewrite (ext_connector _ _ H2), (ext_connector _ _ H1). }
    { exact Hty. }
    { now rewrite (ext_instance _ _ H2), (ext_instance _ _ H1). }
    { exact Hgc. }
    rewrite (extends_str _ _ H2), (extends_str _ _ H1) in Htr.
    unfold sync. erewrite bind_ret by apply connector_run.
    rewrite Hc. unfold conn_fetch. rewrite bind_assoc, bind_get_self, bind_assoc, bind_emit.
    rewrite bind_ret_l, Hfetch. unfold sync_instance.
    erewrite bind_ret by apply instance_connector_run.
    rewrite (ext_instance _ _ H1), Hic, bind_deref_some.
    apply String.eqb_neq in Hapi. rewrite Hapi. simpl.
    split; [exact Hres|]. split.
    + exists (EvFetch c (str (self (with_connector s))) :: before). now rewrite Htr.
    + constructor; [intros []|]. exact Hw.
Qed.

(** C2 as stated does not hold: the source of [Demo.cpu] resolves, its fetch
    yields nothing, and [sync] returns [None], which is no
    [(success, message)] pair. *)
Lemma sync_empty_fetch_is_no_pair :
  let s := mkState Demo.cpu Demo.empty_world in
  resolved_connector s = Some Demo.sql_main
  /\ fetch Demo.externals Demo.sql_main (self (with_connector s)) = None
  /\ res (sync Demo.externals None s) = Ret (RValue PNone)
  /\ ~ (exists ok msg, res (sync Demo.externals None s) = Ret (RTuple ok msg)).
Proof.
  cbv zeta.
  assert (H : res (sync Demo.externals None (mkState Demo.cpu Demo.empty_world))
              = Ret (RValue PNone)) by (vm_compute; reflexivity).
  split; [vm_compute; reflexivity|].
  split; [reflexivity|].
  split; [exact H|].
  intros (ok & msg & H'). rewrite H in H'. discriminate.
Qed.

(** * Further properties of the code *)

(** ** The merge expression [df[~df.isin(backtrack_df)].dropna(how='all')] *)

Lemma combine_map_same {A B : Type} (g : A -> B) (l : list A) :
  combine l (map g l) = map (fun x => (x, g x)) l.
Proof. induction l as [|x l IH]; simpl; [reflexivity | now rewrite IH]. Qed.

Lemma where_all_true (cols : list string) (cells : list cell) :
  (length cells <= length cols)%nat ->
  map (fun cm : cell * bool => if snd cm then fst cm else None)
      (combine cells (map (fun _ : string * cell => true) (combine cols cells)))
  = cells.
Proof.
  revert cols. induction cells as [|v cells IH]; intros cols Hlen; [reflexivity|].
  destruct cols as [|c cols]; simpl in *; [lia|].
  rewrite IH by lia. reflexivity.
Qed.

Lemma where_nothing_stored (cs cols : list string) (rs : list (Z * list cell)) :
  Forall (fun r : Z * list cell => length (snd r) = length cs) rs ->
  map (fun r => where_row r (map negb (isin_row (mkDF cols []) cs r))) rs = rs.
Proof.
  induction 1 as [|[i cells] rs Hr _ IH]; [reflexivity|].
  simpl. rewrite IH. f_equal.
  unfold where_row, isin_row. simpl in *. f_equal.
  rewrite map_map. simpl. apply where_all_true. lia.
Qed.

(** X17.  Against a backtrack frame without rows the merge expression keeps
    every fetched row as it is, except the rows without any value. *)
Theorem unseen_nothing_stored (df : DataFrame) (cols : list string) :
  well_formed df ->
  unique_str cols = true ->
  unseen df (Some (mkDF cols [])) = Ret (dropna_all df).
Proof.
  intros Hwf Hcols. unfold unseen, isin. simpl. rewrite Hcols. simpl.
  f_equal. unfold dropna_all, getitem_mask, invert. simpl. f_equal. f_equal.
  rewrite !map_map, combine_map_same, map_map. simpl.
  now apply where_nothing_stored.
Qed.

Lemma unseen_nothing_stored_witness :
  unseen Demo.fetched (Some (mkDF ["ts"; "v"] [])) = Ret (dropna_all Demo.fetched).
Proof.
  apply unseen_nothing_stored.
  - repeat constructor.
  - reflexivity.
Defined.

Lemma find_row_in (rs : list (Z * list cell)) (i : Z) (cells : list cell) :
  unique_Z (map fst rs) = true ->
  In (i, cells) rs ->
  find_row i rs = Some cells.
Proof.
  unfold find_row. induction rs as [|[i' cells'] rs IH]; intros Hu Hin; [destruct Hin|].
  simpl in *. apply andb_prop in Hu as [Hhd Htl].
  destruct Hin as [Heq|Hin].
  - injection Heq as -> ->. now rewrite Z.eqb_refl.
  - destruct (Z.eqb i' i) eqn:Hi.
    + apply Z.eqb_eq in Hi. subst i'. exfalso.
      apply negb_true_iff in Hhd.
      assert (Hex : existsb (Z.eqb i) (map fst rs) = true).
      { apply existsb_exists. exists i. split; [|apply Z.eqb_refl].
        apply in_map_iff. now exists (i, cells). }
      congruence.
    + now apply IH.
Qed.

Lemma unique_str_fresh (pre cs : list string) (c : string) :
  unique_str (pre ++ c :: cs) = true ->
  existsb (String.eqb c) pre = false.
Proof.
  induction pre as [|p pre IH]; intros Hu; [reflexivity|].
  simpl in *. apply andb_prop in Hu as [Hhd Htl].
  apply negb_true_iff in Hhd. rewrite existsb_app in Hhd.
  apply orb_false_iff in Hhd as [_ Hhd]. simpl in Hhd.
  apply orb_false_iff in Hhd as [Hpc _].
  rewrite String.eqb_sym, Hpc. simpl. now apply IH.
Qed.

Lemma index_of_fresh (pre cs : list string) (c : string) :
  existsb (String.eqb c) pre = false ->
  index_of c (pre ++ c :: cs) = Some (length pre).
Proof.
  induction pre as [|p pre IH]; intros Hf; simpl in *.
  - now rewrite String.eqb_refl.
  - apply orb_false_iff in Hf as [Hcp Hf]. rewrite Hcp, (IH Hf). reflexivity.
Qed.

Lemma nth_error_middle {A : Type} (pre post : list A) (x : A) :
  nth_error (pre ++ x :: post) (length pre) = Some x.
Proof. induction pre as [|p pre IH]; simpl; [reflexivity | exact IH]. Qed.

(** Compared with itself, a row leaves no value behind the inverted mask. *)
Lemma where_same_row (pre cs : list string) (vpre vs : list cell) :
  unique_str (pre ++ cs) = true ->
  length vpre = length pre ->
  all_missing
    (map (fun cm : cell * bool => if snd cm then fst cm else None)
       (combine vs
          (map negb
             (map (fun cv : string * cell =>
                     match
                       match index_of (fst cv) (pre ++ cs) with
                       | Some j => nth_error (vpre ++ vs) j
                       | None => None
                       end
                     with
                     | Some v => cell_eqb (snd cv) v
                     | None => false
                     end)
                  (combine cs vs)))))
  = true.
Proof.
  revert pre vpre vs. induction cs as [|c cs IH]; intros pre vpre vs Hu Hlen.
  - destruct vs; reflexivity.
  - destruct vs as [|v vs]; [reflexivity|].
    simpl combine. simpl map.
    rewrite (index_of_fresh pre cs c (unique_str_fresh pre cs c Hu)).
    rewrite <- Hlen, nth_error_middle.
    simpl. specialize (IH (pre ++ [c])%list (vpre ++ [v])%list vs).
    rewrite <- !app_assoc in IH. simpl in IH.
    rewrite IH; [| exact Hu | rewrite !length_app; simpl; lia].
    destruct v as [x|]; simpl; [|reflexivity].
    now rewrite Z.eqb_refl.
Qed.

Lemma filter_none {A : Type} (p : A -> bool) (l : list A) :
  (forall x, In x l -> p x = false) -> List.filter p l = [].
Proof.
  induction l as [|x l IH]; intros H; [reflexivity|].
  simpl. rewrite (H x (or_introl eq_refl)). apply IH. intros y Hy. apply H. now right.
Qed.

(** X18.  When the backtrack frame is the fetched frame itself (same labels,
    same cells), the merge expression keeps nothing: this is the case in
    which a repeated sync adds no row. *)
Theorem unseen_same_frame (df : DataFrame) :
  unique_axes df ->
  unseen df (Some df) = Ret (mkDF (columns df) []).
Proof.
  intros [Hcols Hrows]. unfold unseen, isin. rewrite Hcols, Hrows. simpl.
  f_equal. unfold dropna_all, getitem_mask, invert. simpl. f_equal.
  rewrite !map_map, combine_map_same, map_map. simpl.
  apply filter_none. intros r Hin. apply in_map_iff in Hin as ([i cells] & <- & Hin).
  apply negb_false_iff. unfold where_row, isin_row, at_label. simpl.
  rewrite (find_row_in _ _ _ Hrows Hin).
  apply (where_same_row [] (columns df) [] cells); [exact Hcols | reflexivity].
Qed.

Lemma unseen_same_frame_witness :
  unseen Demo.fetched (Some Demo.fetched) = Ret (mkDF ["ts"; "v"] []).
Proof. apply unseen_same_frame. split; reflexivity. Defined.

(** X19.  A fetched row that differs from the stored row of the same label
    in one column only is kept, but the value it shares with that stored row
    is blanked before the row is appended. *)
Theorem unseen_blanks_shared_value (a b : string) (i t t' v : Z) :
  a <> b ->
  t <> t' ->
  unseen (mkDF [a; b] [(i, [Some t; Some v])])
         (Some (mkDF [a; b] [(i, [Some t'; Some v])]))
  = Ret (mkDF [a; b] [(i, [Some t; None])]).
Proof.
  intros Hab Ht.
  apply String.eqb_neq in Hab. apply Z.eqb_neq in Ht.
  unfold unseen, isin. simpl. rewrite Hab. simpl.
  unfold dropna_all, getitem_mask, invert, where_row, isin_row, at_label, find_row.
  simpl. rewrite Z.eqb_refl. simpl.
  rewrite !String.eqb_refl. rewrite String.eqb_sym, Hab. simpl.
  rewrite Ht, Z.eqb_refl. reflexivity.
Qed.

Lemma unseen_blanks_shared_value_witness :
  unseen (mkDF ["ts"; "v"] [(0, [Some 36120; Some 2])])
         (Some (mkDF ["ts"; "v"] [(0, [Some 36060; Some 2])]))
  = Ret (mkDF ["ts"; "v"] [(0, [Some 36120; None])]).
Proof. apply unseen_blanks_shared_value; discriminate. Defined.

(** ** Names and handles ([_Pipe.py]) *)

Lemma replace_idempotent (old new : ascii) (s : string) :
  old <> new ->
  replace old new (replace old new s) = replace old new s.
Proof.
  intros Hne. induction s as [|c s IH]; simpl; [reflexivity|].
  rewrite IH. f_equal.
  destruct (Ascii.eqb c old) eqn:Hc; [|now rewrite Hc].
  destruct (Ascii.eqb new old) eqn:Hn; [|reflexivity].
  apply Ascii.eqb_eq in Hn. congruence.
Qed.

Lemma append_longer (a b : string) : b <> "" -> (a ++ b)%string <> a.
Proof.
  intros Hb. induction a as [|c a IH]; simpl; [exact Hb|].
  intros H. injection H as H. now apply IH.
Qed.

(** X1.  The storage name does not tell pipes apart: a metric key that ends
    in [_a] with location [b] and the shorter metric key with location
    [a_b] are two pipes with one name, and so are connector keys written
    with [:] and with [_]. *)
Theorem storage_name_collides (ck mk a b : string) (inst : string + Connector)
    (p1 p2 p3 : Pipe) :
  init ck (mk ++ "_" ++ a) (Some b) None inst = Ret p1 ->
  init ck mk (Some (a ++ "_" ++ b)) None inst = Ret p2 ->
  init (replace ":" "_" ck) mk (Some (a ++ "_" ++ b)) None inst = Ret p3 ->
  Store.identity_of p1 <> Store.identity_of p2
  /\ str p1 = str p2
  /\ str p3 = str p2.
Proof.
  intros H1 H2 H3.
  apply init_ret in H1 as (Hc1 & Hm1 & Hl1 & _).
  apply init_ret in H2 as (Hc2 & Hm2 & Hl2 & _).
  apply init_ret in H3 as (Hc3 & Hm3 & Hl3 & _).
  split; [|split].
  - unfold Store.identity_of. rewrite Hm1, Hm2. intros H. injection H as _ H _.
    revert H. now apply append_longer.
  - unfold str. rewrite Hc1, Hm1, Hl1, Hc2, Hm2, Hl2.
    now rewrite !append_assoc.
  - unfold str. rewrite Hc3, Hm3, Hl3, Hc2, Hm2, Hl2.
    now rewrite replace_idempotent by discriminate.
Qed.

Lemma storage_name_collides_witness :
  exists p1 p2,
    init "sql:main" "cpu_rack1" (Some "server1") None (inl "sql:main") = Ret p1
    /\ init "sql:main" "cpu" (Some "rack1_server1") None (inl "sql:main") = Ret p2
    /\ Store.identity_of p1 <> Store.identity_of p2
    /\ str p1 = "sql_main_cpu_rack1_server1"
    /\ str p2 = "sql_main_cpu_rack1_server1".
Proof.
  eexists _, _. split; [reflexivity|]. split; [reflexivity|].
  destruct (storage_name_collides "sql:main" "cpu" "rack1" "server1" (inl "sql:main")
              _ _ _ eq_refl eq_refl eq_refl) as (Hid & Hs & _).
  split; [exact Hid|]. split; reflexivity.
Defined.

(** X2.  A handle that resolved once stays: after [instance_connector] (or
    [connector]) has returned a handle, every later access returns the same
    handle, changes nothing and does not look at the registry again, whatever
    the registry holds by then. *)
Theorem resolved_handle_is_kept (s : State) (w' : World) :
  (forall c, res (instance_connector s) = Ret (Some c) ->
     let s1 := mkState (self (post (instance_connector s))) w' in
     instance_connector s1 = Run (Ret (Some c)) s1 [])
  /\ (forall c, res (connector s) = Ret (Some c) ->
        let s1 := mkState (self (post (connector s))) w' in
        connector s1 = Run (Ret (Some c)) s1 []).
Proof.
  split; intros c.
  - rewrite (instance_connector_run s). simpl. intros H. injection H as H.
    apply instance_cached_after in H.
    rewrite instance_connector_run.
    generalize dependent (self (with_instance s)). intros p1 Hp1.
    unfold resolved_instance, with_instance. simpl. now rewrite Hp1.
  - rewrite (connector_run s). simpl. intros H. injection H as H.
    apply connector_cached_after in H.
    rewrite connector_run.
    generalize dependent (self (with_connector s)). intros p1 Hp1.
    unfold resolved_connector, with_connector. simpl. now rewrite Hp1.
Qed.

(** X3.  A handle that did not resolve is not remembered: the access returns
    [None] without an exception and leaves the pipe as it was, so that an
    access made once the registry knows the keys resolves them. *)
Theorem unresolved_handle_is_retried (s : State) :
  (res (instance_connector s) = Ret None ->
   post (instance_connector s) = s
   /\ forall w' c, registry w' !! instance_keys (self s) = Some c ->
        res (instance_connector (mkState (self s) w')) = Ret (Some c))
  /\ (res (connector s) = Ret None ->
      post (connector s) = s
      /\ forall w' c, registry w' !! connector_keys (self s) = Some c ->
           res (connector (mkState (self s) w')) = Ret (Some c)).
Proof.
  split.
  - rewrite instance_connector_run. simpl. intros H. injection H as H.
    unfold resolved_instance in H.
    destruct (_instance_connector (self s)) eqn:Hc; [discriminate|].
    split.
    + unfold with_instance. now rewrite Hc, H.
    + intros w' c Hreg. rewrite instance_connector_run. simpl.
      unfold resolved_instance. simpl. now rewrite Hc, Hreg.
  - rewrite connector_run. simpl. intros H. injection H as H.
    unfold resolved_connector in H.
    destruct (_connector (self s)) eqn:Hc; [discriminate|].
    split.
    + unfold with_connector. now rewrite Hc, H.
    + intros w' c Hreg. rewrite connector_run. simpl.
      unfold resolved_connector. simpl. now rewrite Hc, Hreg.
Qed.

(** ** Edge cases of [_sync.py] *)

(** X5.  For a pipe whose in-memory parameters declare no datetime column
    [get_sync_time] warns once and returns [None] without asking the
    instance connector; the [sync_time] property then returns [None] as well
    and caches nothing. *)
Theorem get_sync_time_undeclared (s : State) (prm : pyval) :
  _parameters (self s) = Some prm ->
  undeclared_datetime (self s) ->
  (exists msg, get_sync_time s = Run (Ret None) s [EvWarn msg])
  /\ (_sync_time (self s) = None ->
      res (sync_time s) = Ret None
      /\ post (sync_time s) = s
      /\ exists msg, trace (sync_time s) = [EvWarn msg]).
Proof.
  unfold undeclared_datetime. intros _ Hu.
  assert (Hg : exists msg, get_sync_time s = Run (Ret None) s [EvWarn msg]).
  { rewrite get_sync_time_run.
    destruct (pipe_columns (self s)) as [cols|]; [rewrite Hu|]; eauto. }
  split; [exact Hg|].
  intros Hc. destruct Hg as [msg Hg].
  unfold sync_time. rewrite bind_get_self, Hc, !bind_assoc.
  erewrite bind_ret by apply Hg. run_simpl.
  split; [reflexivity|]. split; [|now exists msg].
  destruct s as [[] w]. simpl in *. now subst.
Qed.

Lemma get_sync_time_undeclared_witness :
  exists msg,
    get_sync_time (mkState Demo2.undeclared Demo2.world)
    = Run (Ret None) (mkState Demo2.undeclared Demo2.world) [EvWarn msg].
Proof.
  apply (get_sync_time_undeclared (mkState Demo2.undeclared Demo2.world)
           (PDict [("fetch", PDict [])])).
  - reflexivity.
  - exact I.
Defined.

(** X6.  [exists] raises for every database flavor outside the five it
    knows: the query is never bound, and no probe is sent. *)
Theorem exists_unknown_flavor (E : Externals) (s : State) (m : Connector) :
  registry (world s) !! "sql:main" = Some m ->
  flavor_in (flavor m) ["timescaledb"; "postgresql"; "mssql"; "mysql"; "mariadb"] = false ->
  res (exists_ E s) = Raise (UnboundLocalError "q")
  /\ trace (exists_ E s) = [].
Proof.
  intros Hm Hf. unfold flavor_in in Hf. simpl in Hf.
  repeat (apply orb_false_iff in Hf as [? Hf]).
  unfold exists_.
  erewrite bind_ret by apply instance_connector_run.
  rewrite get_connector_run, world_with_instance.
  change ("sql" ++ ":" ++ "main")%string with "sql:main".
  rewrite Hm, bind_deref_some, bind_get_self.
  unfold flavor_in. simpl.
  repeat match goal with H : String.eqb _ _ = false |- _ => rewrite H; clear H end.
  simpl. split; reflexivity.
Qed.

Lemma exists_unknown_flavor_witness :
  res (exists_ Demo.externals (mkState Demo.cpu Demo2.lite_world))
  = Raise (UnboundLocalError "q")
  /\ trace (exists_ Demo.externals (mkState Demo.cpu Demo2.lite_world)) = [].
Proof.
  apply (exists_unknown_flavor Demo.externals (mkState Demo.cpu Demo2.lite_world)
           Demo2.sql_lite).
  - vm_compute. reflexivity.
  - reflexivity.
Defined.

(** X7.  When the instance keys of a pipe do not resolve, [sync] with rows
    raises an [AttributeError] (it reads [type] of [None]) before anything
    else happens. *)
Theorem sync_without_instance (E : Externals) (s : State) (d : DataFrame) :
  resolved_instance s = None ->
  sync E (Some d) s
  = Run (Raise (AttributeError "'NoneType' object has no attribute 'type'")) s [].
Proof.
  intros Hic. unfold sync, sync_instance.
  erewrite bind_ret by apply instance_connector_run.
  rewrite Hic, bind_deref_none. simpl.
  unfold with_instance. unfold resolved_instance in Hic.
  destruct (_instance_connector (self s)); [discriminate|]. now rewrite Hic.
Qed.

Lemma sync_without_instance_witness :
  res (sync Demo.externals (Some Demo.fetched) (mkState Demo2.lost Demo2.world))
  = Raise (AttributeError "'NoneType' object has no attribute 'type'").
Proof.
  rewrite (sync_without_instance Demo.externals (mkState Demo2.lost Demo2.world)
             Demo.fetched); [reflexivity|].
  vm_compute. reflexivity.
Defined.

(** X8.  The [id] property needs the instance connector: without a truthy
    cached id and without a resolvable instance it raises an
    [AttributeError]; with a truthy cached id it answers from the cache and
    asks nobody. *)
Theorem id_needs_instance (s : State) :
  (cached_id_is_truthy (self s) = false ->
   resolved_instance s = None ->
   res (id s) = Raise (AttributeError "'NoneType' object has no attribute 'get_pipe_id'")
   /\ trace (id s) = [])
  /\ (forall n, _id (self s) = Some (Some n) -> n <> 0 ->
        id s = Run (Ret (Some n)) s []).
Proof.
  split.
  - intros Hc Hic. rewrite id_run, Hc, Hic. split; reflexivity.
  - intros n Hn Hnz. rewrite id_run. unfold cached_id_is_truthy. rewrite Hn. simpl.
    apply Z.eqb_neq in Hnz. now rewrite Hnz.
Qed.

Lemma emits_administrative_id : emits administrative id.
Proof. unfold id, conn_get_pipe_id. emits_walk; exact I. Qed.

Lemma sync_local_pushed (E : Externals) (s : State) (c ic : Connector) (v : pyval) :
  resolved_connector s = Some c ->
  type c = "mqtt" ->
  resolved_instance s = Some ic ->
  get_columns E (self s) "datetime" = Ret v ->
  res (sync_local E None s) = Ret (RTuple true "Success")
  /\ Forall administrative (trace (sync_local E None s)).
Proof.
  intros Hc Hty Hic Hgc. unfold sync_local.
  rewrite bind_get_self, bind_emit, Hgc, bind_lift_ret.
  destruct (id_returns s ic Hic) as [i Hi].
  pose proof (preserves_extends_id s) as H1.
  pose proof (emits_administrative_id s) as W1.
  destruct (id s) as [ri s1 t1] eqn:Hid. simpl in Hi, H1, W1. subst ri.
  erewrite bind_ret by apply Hid.
  assert (Hreg : exists s2 t2,
             (if negb (truthy_id i) then register else ret tt) s1 = Run (Ret tt) s2 t2
             /\ extends s1 s2 /\ Forall administrative t2).
  { destruct (negb (truthy_id i)).
    - unfold register. erewrite bind_ret by apply instance_connector_run.
      rewrite (ext_instance _ _ H1), Hic, bind_deref_some, conn_register_run.
      simpl. eexists _, _. split; [reflexivity|]. split.
      + etransitivity; [apply extends_with_instance|].
        apply (preserves_extends_conn_register ic (with_instance s1)).
      + repeat constructor.
    - exists s1, []. split; [reflexivity|]. split; [apply extends_refl | constructor]. }
  destruct Hreg as (s2 & t2 & Hrun & H2 & W2).
  erewrite bind_ret by apply Hrun.
  erewrite bind_ret by apply connector_run.
  rewrite (ext_connector _ _ H2), (ext_connector _ _ H1), Hc, bind_deref_some.
  rewrite Hty. simpl.
  split; [reflexivity|].
  constructor; [exact I|].
  apply Forall_app. split; [exact W1|].
  apply Forall_app. split; [exact W2 | constructor].
Qed.

(** X9.  A stream pushed by a message queue: when the source is of type
    ["mqtt"], the fetch yields nothing, the instance is not of type ["api"]
    and the datetime column lookup returns, [sync] answers
    [(True, "Success")]; it has only fetched, looked up the column and the
    id and perhaps registered the pipe: no warning, no probe, no write. *)
Theorem sync_pushed_stream (E : Externals) (s : State) (c ic : Connector) (v : pyval) :
  resolved_connector s = Some c ->
  type c = "mqtt" ->
  fetch E c (self (with_connector s)) = None ->
  resolved_instance s = Some ic ->
  type ic <> "api" ->
  get_columns E (self (with_instance (with_connector s))) "datetime" = Ret v ->
  res (sync E None s) = Ret (RTuple true "Success")
  /\ Forall administrative (trace (sync E None s)).
Proof.
  intros Hc Hty Hfetch Hic Hapi Hgc.
  pose proof (extends_with_connector s) as H1.
  pose proof (extends_with_instance (with_connector s)) as H2.
  destruct (sync_local_pushed E (with_instance (with_connector s)) c ic v)
    as (Hres & Hw).
  { now rewrite (ext_connector _ _ H2), (ext_connector _ _ H1). }
  { exact Hty. }
  { now rewrite (ext_instance _ _ H2), (ext_instance _ _ H1). }
  { exact Hgc. }
  unfold sync. erewrite bind_ret by apply connector_run.
  rewrite Hc. unfold conn_fetch. rewrite bind_assoc, bind_get_self, bind_assoc, bind_emit.
  rewrite bind_ret_l, Hfetch. unfold sync_instance.
  erewrite bind_ret by apply instance_connector_run.
  rewrite (ext_instance _ _ H1), Hic, bind_deref_some.
  apply String.eqb_neq in Hapi. rewrite Hapi. simpl.
  split; [exact Hres|]. constructor; [exact I | exact Hw].
Qed.

Lemma sync_pushed_stream_witness :
  res (sync Demo.externals None (mkState Demo2.pushed Demo2.world))
  = Ret (RTuple true "Success")
  /\ Forall administrative
       (trace (sync Demo.externals None (mkState Demo2.pushed Demo2.world))).
Proof.
  apply (sync_pushed_stream Demo.externals (mkState Demo2.pushed Demo2.world)
           Demo2.mqtt_main Demo.sql_main (PStr "ts")).
  - vm_compute. reflexivity.
  - reflexivity.
  - reflexivity.
  - vm_compute. reflexivity.
  - discriminate.
  - vm_compute. reflexivity.
Defined.

Lemma lookup_pipe_app_fresh (i : Store.identity) (ps : list (Store.identity * Z)) (n : Z) :
  Store.lookup_pipe i ps = None ->
  Store.lookup_pipe i (ps ++ [(i, n)]) = Some n.
Proof.
  induction ps as [|[i' n'] ps IH]; simpl.
  - intros _. now rewrite bool_decide_eq_true_2.
  - destruct (bool_decide (i = i')); [discriminate | exact IH].
Qed.

Lemma db_of_set_db (w : World) (c : Connector) (db : Store.Db) :
  db_of (set_db w c db) c = db.
Proof. unfold db_of, set_db. simpl. now rewrite lookup_insert_eq. Qed.

(** X10.  An unregistered pipe is registered by [sync] before an empty fetch
    is reported: when the fetch yields nothing on the local path, the id is
    not cached and the instance does not know the pipe, the run registers it
    once, and afterwards the instance has a non-zero id for it. *)
Theorem sync_registers_before_giving_up (E : Externals) (s : State)
    (c ic : Connector) (v : pyval) :
  resolved_connector s = Some c ->
  fetch E c (self (with_connector s)) = None ->
  resolved_instance s = Some ic ->
  type ic <> "api" ->
  get_columns E (self (with_instance (with_connector s))) "datetime" = Ret v ->
  cached_id_is_truthy (self s) = false ->
  Store.get_pipe_id (db_of (world s) ic) (self s) = None ->
  let r := sync E None s in
  In (EvRegister ic (str (self s))) (trace r)
  /\ exists n, Store.get_pipe_id (db_of (world (post r)) ic) (self s) = Some n /\ n <> 0.
Proof.
  intros Hc Hfetch Hic Hapi Hgc Hcache Hnone r. subst r.
  pose proof (extends_with_connector s) as H1.
  pose proof (extends_with_instance (with_connector s)) as H2.
  assert (H12 : extends s (with_instance (with_connector s)))
    by (etransitivity; eassumption).
  assert (Hw2 : world (with_instance (with_connector s)) = world s)
    by now rewrite world_with_instance, world_with_connector.
  assert (Hcache2 : cached_id_is_truthy (self (with_instance (with_connector s))) = false).
  { unfold with_instance, with_connector, cached_id_is_truthy in *.
    destruct (_connector (self s));
      [|destruct (registry (world s) !! connector_keys (self s))]; simpl;
      match goal with
      | |- context [_instance_connector ?p] => destruct (_instance_connector p)
      end; simpl; try exact Hcache;
      match goal with
      | |- context [registry ?w !! ?k] => destruct (registry w !! k)
      end; simpl; exact Hcache. }
  remember (with_instance (with_connector s)) as s2 eqn:Es2.
  assert (Hic2 : resolved_instance s2 = Some ic) by now rewrite (ext_instance _ _ H12).
  pose proof (extends_with_instance s2) as H2'.
  assert (Hv : Store.get_pipe_id (db_of (world s2) ic) (self (with_instance s2)) = None).
  { unfold Store.get_pipe_id in *.
    now rewrite (identity_of_extends _ _ H2'), (identity_of_extends _ _ H12), Hw2. }
  assert (Hidrun : id s2
                   = Run (Ret None)
                         (mkState (set__id None (self (with_instance s2))) (world s2))
                         [EvGetPipeId ic (str (self s2))]).
  { rewrite id_run, Hcache2, Hic2. cbv zeta. now rewrite Hv. }
  pose proof (preserves_extends_id s2) as H3. rewrite Hidrun in H3. cbn [post] in H3.
  assert (Hw3 : world (mkState (set__id None (self (with_instance s2))) (world s2)) = world s)
    by exact Hw2.
  remember (mkState (set__id None (self (with_instance s2))) (world s2)) as s3 eqn:Es3.
  assert (H13 : extends s s3) by (etransitivity; eassumption).
  assert (Hic3 : resolved_instance s3 = Some ic) by now rewrite (ext_instance _ _ H13).
  pose proof (extends_with_instance s3) as H4.
  assert (H14 : extends s (with_instance s3)) by (etransitivity; eassumption).
  assert (Hreg : exists n,
             Store.get_pipe_id
               (Store.register (db_of (world s) ic) (self (with_instance s3))) (self s)
             = Some n /\ n <> 0).
  { unfold Store.get_pipe_id, Store.register in *.
    rewrite (identity_of_extends _ _ H14), Hnone. simpl.
    exists (Z.of_nat (S (length (Store.pipes (db_of (world s) ic))))).
    split; [now apply lookup_pipe_app_fresh | lia]. }
  unfold sync. erewrite bind_ret by apply connector_run.
  rewrite Hc. unfold conn_fetch. rewrite bind_assoc, bind_get_self, bind_assoc, bind_emit.
  rewrite bind_ret_l, Hfetch. unfold sync_instance.
  erewrite bind_ret by apply instance_connector_run.
  rewrite (ext_instance _ _ H1), Hic, bind_deref_some.
  apply String.eqb_neq in Hapi. rewrite Hapi. rewrite <- Es2.
  unfold sync_local.
  rewrite bind_get_self, bind_emit, Hgc, bind_lift_ret.
  erewrite bind_ret by apply Hidrun.
  simpl negb. cbn iota.
  unfold register.
  rewrite bind_assoc. erewrite bind_ret by apply instance_connector_run.
  rewrite Hic3, bind_assoc, bind_deref_some.
  erewrite bind_ret by apply conn_register_run.
  rewrite world_with_instance, Hw3.
  erewrite bind_ret by apply connector_run.
  rewrite (extends_str _ _ H4), (extends_str _ _ H13), (extends_str _ _ H12).
  match goal with
  | |- context [resolved_connector ?st] =>
      destruct (resolved_connector st) as [c4|];
      [rewrite bind_deref_some | rewrite bind_deref_none]
  end.
  - destruct (String.eqb (type c4) "mqtt").
    + cbn [ret res post trace]. rewrite world_with_connector. cbn [world].
      rewrite db_of_set_db.
      split; [|exact Hreg]. simpl. right. right. right. now left.
    + rewrite bind_get_self, bind_warn. cbn [ret res post trace].
      rewrite world_with_connector. cbn [world]. rewrite db_of_set_db.
      split; [|exact Hreg]. simpl. right. right. right. now left.
  - cbn [res post trace]. rewrite world_with_connector. cbn [world].
    rewrite db_of_set_db.
    split; [|exact Hreg]. simpl. right. right. right. now left.
Qed.

Lemma sync_registers_before_giving_up_witness :
  let s := mkState Demo.cpu Demo.empty_world in
  let r := sync Demo.externals None s in
  In (EvRegister Demo.sql_main "sql_main_cpu_server1") (trace r)
  /\ exists n, Store.get_pipe_id (db_of (world (post r)) Demo.sql_main) Demo.cpu = Some n
               /\ n <> 0.
Proof.
  apply (sync_registers_before_giving_up Demo.externals
           (mkState Demo.cpu Demo.empty_world) Demo.sql_main Demo.sql_main (PStr "ts")).
  - vm_compute. reflexivity.
  - reflexivity.
  - vm_compute. reflexivity.
  - discriminate.
  - vm_compute. reflexivity.
  - reflexivity.
  - vm_compute. reflexivity.
Defined.

(** ** Rows without a declared datetime column *)

Lemma oldest_undeclared (p : Pipe) (d : DataFrame) :
  undeclared_datetime p -> exists e, oldest p d = Raise e.
Proof.
  unfold undeclared_datetime, oldest.
  destruct (pipe_columns p) as [cols|]; [intros ->|]; eauto.
Qed.

Lemma undeclared_extends (s s' : State) :
  extends s s' -> undeclared_datetime (self s) -> undeclared_datetime (self s').
Proof.
  unfold undeclared_datetime. intros H. now rewrite (extends_pipe_columns _ _ H).
Qed.

(** A step that keeps the pipe, before a rest that raises from every state
    reached. *)
Lemma bind_raises_later {A B : Type} (m : M A) (f : A -> M B) (s : State) :
  preserves extends m ->
  (forall a s1, extends s s1 -> exists e, res (f a s1) = Raise e) ->
  exists e, res (bind m f s) = Raise e.
Proof.
  intros Hm Hf. rewrite bind_run.
  destruct (res (m s)) as [a|e] eqn:Hr; simpl; [|eauto].
  apply Hf. apply Hm.
Qed.

(** X11.  Rows for a pipe that declares no datetime column: on the local
    path [sync] never returns, it raises (at the latest when it reads
    [columns['datetime']] to find the oldest row), whatever the column
    lookup, the probe and the store do before. *)
Theorem sync_rows_without_datetime_raises (E : Externals) (s : State) (d : DataFrame)
    (ic : Connector) :
  resolved_instance s = Some ic ->
  type ic <> "api" ->
  undeclared_datetime (self s) ->
  exists e, res (sync E (Some d) s) = Raise e.
Proof.
  intros Hic Hapi Hu. unfold sync, sync_instance.
  erewrite bind_ret by apply instance_connector_run.
  rewrite Hic, bind_deref_some.
  apply String.eqb_neq in Hapi. rewrite Hapi.
  pose proof (undeclared_extends _ _ (extends_with_instance s) Hu) as Hu1.
  revert Hu1. generalize (with_instance s). clear s Hic Hu. intros s Hu.
  unfold sync_local. rewrite bind_get_self, bind_emit. cbn [res].
  destruct (get_columns E (self s) "datetime") as [v|e];
    [rewrite bind_lift_ret | rewrite bind_lift_raise; eauto].
  apply bind_raises_later; [auto with preserves_db|]. intros i s1 H1.
  apply bind_raises_later.
  { destruct (negb (truthy_id i)); auto with preserves_db typeclass_instances. }
  intros _ s2 H2. unfold sync_merge.
  apply bind_raises_later; [auto with preserves_db|]. intros sc s3 H3.
  apply bind_raises_later; [auto with preserves_db|]. intros found s4 H4.
  apply bind_raises_later.
  { destruct (negb found); preserves_walk. }
  intros _ s5 H5. rewrite bind_get_self.
  assert (Hu5 : undeclared_datetime (self s5)).
  { repeat (eapply undeclared_extends; [eassumption|]). exact Hu. }
  destruct (oldest_undeclared (self s5) d Hu5) as [e He].
  rewrite He, bind_lift_raise. eauto.
Qed.

Lemma sync_rows_without_datetime_raises_witness :
  exists e,
    res (sync Demo.externals (Some Demo.fetched) (mkState Demo2.undeclared Demo2.world))
    = Raise e.
Proof.
  apply (sync_rows_without_datetime_raises Demo.externals
           (mkState Demo2.undeclared Demo2.world) Demo.fetched Demo.sql_main).
  - vm_compute. reflexivity.
  - discriminate.
  - vm_compute. reflexivity.
Defined.

(** ** What a sync leaves behind *)

Lemma sync_time_cached_run (s : State) (t : Z) :
  _sync_time (self s) = Some (Some t) ->
  sync_time s = Run (Ret (Some t)) s [].
Proof.
  intros Hc. unfold sync_time. rewrite bind_get_self, Hc. run_simpl.
  rewrite Hc. reflexivity.
Qed.

(** X13.  The [sync_time] property is not refreshed by [sync]: once it holds
    a timestamp, it returns the same timestamp after any sync, without asking
    the instance, even when newer rows were appended. *)
Theorem sync_time_is_not_refreshed (E : Externals) (df : option DataFrame) (s : State)
    (t : Z) :
  _sync_time (self s) = Some (Some t) ->
  let s' := post (sync E df s) in
  sync_time s' = Run (Ret (Some t)) s' [].
Proof.
  intros Hc s'. apply sync_time_cached_run.
  pose proof (preserves_kst_sync E df s) as Hk. unfold keeps_sync_time in Hk.
  fold s' in Hk. now rewrite Hk.
Qed.

Lemma sync_time_is_not_refreshed_witness :
  let s := mkState Demo2.cpu_read Demo.cpu_world in
  let s' := post (sync Demo.externals (Some Demo.fetched) s) in
  sync_time s' = Run (Ret (Some 36060)) s' []
  /\ res (get_sync_time s') = Ret (Some 36120).
Proof.
  cbv zeta. split.
  - apply (sync_time_is_not_refreshed Demo.externals (Some Demo.fetched)
             (mkState Demo2.cpu_read Demo.cpu_world) 36060).
    reflexivity.
  - vm_compute. reflexivity.
Defined.

(** X14.  Without a [begin] argument [get_backtrack_data] reads the
    [sync_time] property and passes its value on as the begin of the query;
    with a [begin] argument the property is not read and the query is the
    only event. *)
Theorem backtrack_begin_defaults_to_sync_time (s : State) (arg : pyval)
    (ic : Connector) (v : option Z) :
  resolved_instance s = Some ic ->
  res (sync_time s) = Ret v ->
  let passed := match declared_backtrack_minutes (self s) with
                | Ret m => m
                | Raise _ => arg
                end in
  trace (get_backtrack_data arg None s)
  = (trace (sync_time s) ++ [EvGetBacktrackData ic (str (self s)) passed v])%list
  /\ forall b,
       trace (get_backtrack_data arg (Some b) s)
       = [EvGetBacktrackData ic (str (self s)) passed (Some b)].
Proof.
  intros Hic Hv passed. split.
  - unfold get_backtrack_data. rewrite bind_get_self. cbn beta iota zeta. fold passed.
    pose proof (preserves_extends_sync_time s) as H1.
    destruct (sync_time s) as [r s1 t1] eqn:Hst. simpl in Hv, H1. subst r.
    erewrite bind_ret by apply Hst.
    erewrite bind_ret by apply instance_connector_run.
    rewrite (ext_instance _ _ H1), Hic, bind_deref_some, conn_get_backtrack_data_run.
    simpl. now rewrite (extends_str _ _ (extends_with_instance s1)), (extends_str _ _ H1).
  - intros b. unfold get_backtrack_data. rewrite bind_get_self. cbn beta iota zeta.
    fold passed. rewrite bind_ret_l.
    erewrite bind_ret by apply instance_connector_run.
    rewrite Hic, bind_deref_some, conn_get_backtrack_data_run.
    simpl. now rewrite (extends_str _ _ (extends_with_instance s)).
Qed.

Lemma backtrack_begin_defaults_to_sync_time_witness :
  trace (get_backtrack_data (PInt 0) None (mkState Demo.cpu Demo.cpu_world))
  = [EvGetSyncTime Demo.sql_main "sql_main_cpu_server1";
     EvGetBacktrackData Demo.sql_main "sql_main_cpu_server1" (PInt 0) (Some 36060)].
Proof.
  destruct (backtrack_begin_defaults_to_sync_time (mkState Demo.cpu Demo.cpu_world)
              (PInt 0) Demo.sql_main (Some 36060)) as [H _].
  - vm_compute. reflexivity.
  - vm_compute. reflexivity.
  - rewrite H. vm_compute. reflexivity.
Defined.

(** X15.  Rows that are handed to [sync] are not fetched again: with a rows
    argument no fetch is made, on any path and however the call ends. *)
Theorem sync_with_rows_does_not_fetch (E : Externals) (d : DataFrame) (s : State) :
  Forall no_fetch (trace (sync E (Some d) s)).
Proof.
  assert (H : emits no_fetch (sync E (Some d))).
  { unfold sync, sync_instance, sync_local, sync_merge, get_backtrack_data, exists_,
      get_connector, register, id, sync_time, get_sync_time,
      conn_sync_pipe, conn_get_pipe_id, conn_register, conn_value, conn_to_sql,
      conn_create_indices, conn_get_backtrack_data, conn_get_sync_time.
    emits_walk; exact I. }
  apply H.
Qed.

Lemma exists_found (E : Externals) (s : State) (b : bool) :
  (forall c db q, value E c db q <> None) ->
  res (exists_ E s) = Ret b ->
  b = true.
Proof.
  intros Hv. unfold exists_.
  erewrite bind_ret by apply instance_connector_run.
  rewrite get_connector_run.
  destruct (registry (world (with_instance s)) !! ("sql" ++ ":" ++ "main")%string) as [m|];
    [rewrite bind_deref_some | rewrite bind_deref_none; discriminate].
  rewrite bind_get_self. unfold conn_value.
  assert (Hq : forall q,
             res ((v <- (w <- get_world;;
                          emit (EvValue m q);;; ret (value E m (db_of w m) q));;
                   ret match v with Some _ => true | None => false end) (with_instance s))
             = Ret b -> b = true).
  { intros q. run_simpl.
    destruct (value E m (db_of (world (with_instance s)) m) q) eqn:Hq;
      [congruence | now apply Hv in Hq]. }
  destruct (flavor_in (flavor m) ["timescaledb"; "postgresql"]);
    [rewrite bind_ret_l; apply Hq|].
  destruct (String.eqb (flavor m) "mssql"); [rewrite bind_ret_l; apply Hq|].
  destruct (flavor_in (flavor m) ["mysql"; "mariadb"]); [rewrite bind_ret_l; apply Hq|].
  rewrite bind_raise_l. discriminate.
Qed.

Lemma no_bootstrap_before (tr : list event) :
  Forall before_merge tr -> no_bootstrap tr.
Proof.
  induction 1 as [|e tr He _ IH]; simpl; [exact I|].
  destruct e; simpl in He; try contradiction; exact IH.
Qed.

Lemma no_bootstrap_app_before (pre tr : list event) :
  Forall before_merge pre -> no_bootstrap tr -> no_bootstrap (pre ++ tr)%list.
Proof.
  induction 1 as [|e pre He _ IH]; simpl; [tauto|].
  intros Htr. destruct e; simpl in He; try contradiction; now apply IH.
Qed.

Lemma no_bootstrap_after_query {B : Type} (m : pyval) (b : Z)
    (f : option DataFrame -> M B) (s : State) :
  (forall a, emits no_index (f a)) ->
  no_bootstrap (trace (bind (get_backtrack_data m (Some b)) f s)).
Proof.
  intros Hf. unfold get_backtrack_data.
  rewrite bind_assoc, bind_get_self. cbv zeta.
  rewrite bind_assoc, bind_ret_l, bind_assoc.
  erewrite bind_ret by apply instance_connector_run.
  destruct (resolved_instance s) as [c|].
  - rewrite bind_assoc, bind_deref_some, bind_run, conn_get_backtrack_data_run.
    simpl. apply Hf.
  - rewrite bind_assoc, bind_deref_none. exact I.
Qed.

(** A quiet step, then the rest from where the step returned. *)
Lemma no_bootstrap_bind {A B : Type} (m : M A) (f : A -> M B) (s : State) :
  Forall before_merge (trace (m s)) ->
  (forall a, res (m s) = Ret a -> no_bootstrap (trace (f a (post (m s))))) ->
  no_bootstrap (trace (bind m f s)).
Proof.
  intros Hm Hf. rewrite bind_run.
  destruct (res (m s)) as [a|e]; simpl.
  - apply no_bootstrap_app_before; [exact Hm | now apply Hf].
  - now apply no_bootstrap_before.
Qed.

Lemma emits_before_merge_exists_ E : emits before_merge (exists_ E).
Proof. unfold exists_, get_connector, conn_value. emits_walk; exact I. Qed.

Lemma emits_no_index_conn_to_sql c name df : emits no_index (conn_to_sql c name df).
Proof. unfold conn_to_sql. emits_walk; exact I. Qed.

Lemma sync_merge_found (E : Externals) (d : DataFrame) (s : State) :
  (forall c db q, value E c db q <> None) ->
  no_bootstrap (trace (sync_merge E d s)).
Proof.
  intros Hv. unfold sync_merge.
  apply no_bootstrap_bind; [apply emits_instance_connector|]. intros sc _.
  apply no_bootstrap_bind; [apply emits_before_merge_exists_|]. intros found Hf.
  apply (exists_found E _ _ Hv) in Hf. subst found. simpl negb. cbn iota.
  rewrite bind_ret_l, bind_get_self.
  apply no_bootstrap_bind; [apply emits_lift|]. intros t _.
  apply no_bootstrap_after_query. intros bt.
  emits_walk; first [exact I | apply emits_no_index_conn_to_sql].
Qed.


